(** * Schema derivation engine of websy: [src/ActorSchemaManager.mjs]

    A shallow embedding of the class [ActorSchemaManager] and the
    properties of its type inference, field aggregation, validation and
    document generation.

    The configuration handed to the class is the tree a YAML parser
    produces: scalars, sequences and mappings.  Modelling choices:

    - a JavaScript object is the list of its own enumerable properties in
      enumeration order; where the class reads a mapping under a computed
      key, the members a plain object inherits from [Object.prototype] are
      found as well ([get_computed]); a field or a group that a
      configuration declares under the name [__proto__] is outside the
      model;
    - numbers are integers: the class never computes with a number, it
      only tests truthiness, copies, and prints one as a property key; a
      number is printed in plain decimal, as JavaScript prints a safe
      integer (one below 2^53 in magnitude);
    - strings are sequences of 8-bit characters and case conversion acts on
      the ASCII letters;
    - a raised [TypeError] is the outcome [Throw];
    - console output has no effect on the returned documents and is left
      out; the file writers are modelled by the file-system calls they
      make. *)

From Stdlib Require Import List String Ascii ZArith NArith Bool Lia DecimalString
  Permutation.
Import ListNotations.
Open Scope string_scope.
Set Warnings "-register-all".

(** ** JavaScript values and the operations the class uses on them *)

Module JS.

Inductive value : Type :=
| VUndef
| VNull
| VBool (b : bool)
| VNum (n : Z)
| VStr (s : string)
| VArr (items : list value)
| VObj (props : list (string * value)).

(** Outcome of an evaluation that may raise. *)
Inductive completion (A : Type) : Type :=
| Ok (a : A)
| Throw.
Arguments Ok {A} a.
Arguments Throw {A}.

Definition bind {A B : Type} (m : completion A) (k : A -> completion B) : completion B :=
  match m with
  | Ok a => k a
  | Throw => Throw
  end.

Notation "x <- m ;; k" := (bind m (fun x => k))
  (at level 61, m at next level, right associativity).

Fixpoint foldM {A S : Type} (step : S -> A -> completion S) (l : list A) (s : S)
  : completion S :=
  match l with
  | [] => Ok s
  | a :: r => s' <- step s a ;; foldM step r s'
  end.

(** [ToBoolean]. *)
Definition truthy (v : value) : bool :=
  match v with
  | VUndef | VNull => false
  | VBool b => b
  | VNum n => negb (Z.eqb n 0)
  | VStr s => negb (String.eqb s "")
  | VArr _ | VObj _ => true
  end.

(** [a || b] on already evaluated operands. *)
Definition or_else (a b : value) : value := if truthy a then a else b.

(** [v !== undefined]. *)
Definition defined (v : value) : bool :=
  match v with VUndef => false | _ => true end.

(** [v === 'literal']. *)
Definition is_str (v : value) (lit : string) : bool :=
  match v with VStr s => String.eqb s lit | _ => false end.

(** [v === false]. *)
Definition is_false (v : value) : bool :=
  match v with VBool false => true | _ => false end.

Definition nat_to_string (n : nat) : string := NilZero.string_of_uint (Nat.to_uint n).
Definition Z_to_string (n : Z) : string := NilZero.string_of_int (Z.to_int n).

Fixpoint lookup (k : string) (ps : list (string * value)) : option value :=
  match ps with
  | [] => None
  | (k', v) :: r => if String.eqb k' k then Some v else lookup k r
  end.

Fixpoint indexed {A : Type} (i : nat) (l : list A) : list (string * A) :=
  match l with
  | [] => []
  | a :: r => (nat_to_string i, a) :: indexed (S i) r
  end.

Fixpoint chars (s : string) : list value :=
  match s with
  | EmptyString => []
  | String c r => VStr (String c EmptyString) :: chars r
  end.

(** Own enumerable properties, in enumeration order: what [Object.entries],
    [Object.keys], object spread and [Object.assign] read. *)
Definition own_props (v : value) : list (string * value) :=
  match v with
  | VObj ps => ps
  | VArr l => indexed 0 l
  | VStr s => indexed 0 (chars s)
  | _ => []
  end.

(** [v[k]] and [v.k]: raises on [undefined] and [null]. *)
Definition get (v : value) (k : string) : completion value :=
  match v with
  | VUndef | VNull => Throw
  | VArr l =>
      if String.eqb k "length" then Ok (VNum (Z.of_nat (List.length l)))
      else Ok (match lookup k (own_props v) with Some x => x | None => VUndef end)
  | VStr s =>
      if String.eqb k "length" then Ok (VNum (Z.of_nat (String.length s)))
      else Ok (match lookup k (own_props v) with Some x => x | None => VUndef end)
  | _ => Ok (match lookup k (own_props v) with Some x => x | None => VUndef end)
  end.

(** [v?.k]. *)
Definition get_opt (v : value) (k : string) : completion value :=
  match v with
  | VUndef | VNull => Ok VUndef
  | _ => get v k
  end.

(** [Object.entries(v)]: raises on [undefined] and [null]. *)
Definition entries (v : value) : completion (list (string * value)) :=
  match v with
  | VUndef | VNull => Throw
  | _ => Ok (own_props v)
  end.

(** [for (const x of v)]: arrays and strings are iterable. *)
Definition iterate (v : value) : completion (list value) :=
  match v with
  | VArr l => Ok l
  | VStr s => Ok (chars s)
  | _ => Throw
  end.

(** [ToString], as used by template literals and computed property keys. *)
Fixpoint to_string (v : value) : string :=
  match v with
  | VUndef => "undefined"
  | VNull => "null"
  | VBool true => "true"
  | VBool false => "false"
  | VNum n => Z_to_string n
  | VStr s => s
  | VArr l =>
      (fix join (l : list value) : string :=
         match l with
         | [] => ""
         | [x] => match x with VUndef | VNull => "" | _ => to_string x end
         | x :: r =>
             (match x with VUndef | VNull => "" | _ => to_string x end) ++ "," ++ join r
         end) l
  | VObj _ => "[object Object]"
  end.

(** A property key that is an array index is enumerated before the other
    keys, in ascending numeric order. *)
Definition array_index (k : string) : option N :=
  match NilZero.uint_of_string k with
  | Some u =>
      let n := N.of_uint u in
      if String.eqb (NilZero.string_of_uint (N.to_uint n)) k && (n <? 4294967295)%N
      then Some n else None
  | None => None
  end.

Definition has_key (k : string) (ps : list (string * value)) : bool :=
  match lookup k ps with Some _ => true | None => false end.

Fixpoint update_prop (k : string) (v : value) (ps : list (string * value))
  : list (string * value) :=
  match ps with
  | [] => []
  | (k', v') :: r =>
      if String.eqb k' k then (k', v) :: r else (k', v') :: update_prop k v r
  end.

Fixpoint insert_index (n : N) (k : string) (v : value) (ps : list (string * value))
  : list (string * value) :=
  match ps with
  | [] => [(k, v)]
  | (k', v') :: r =>
      match array_index k' with
      | Some m => if (m <? n)%N then (k', v') :: insert_index n k v r
                  else (k, v) :: ps
      | None => (k, v) :: ps
      end
  end.

(** [o[k] = v] on the property list of [o]: an existing key keeps its place,
    a new one is enumerated after the others of its kind. *)
Definition obj_set (ps : list (string * value)) (k : string) (v : value)
  : list (string * value) :=
  if has_key k ps then update_prop k v ps
  else match array_index k with
       | Some n => insert_index n k v ps
       | None => (ps ++ [(k, v)])%list
       end.

(** [Object.assign(target, source)] on the property list of the target. *)
Definition assign (target : list (string * value)) (source : value)
  : list (string * value) :=
  fold_left (fun acc p => obj_set acc (fst p) (snd p)) (own_props source) target.

(** [s.split(c)] for a one-character separator. *)
Fixpoint split_on (c : ascii) (s : string) : list string :=
  match s with
  | EmptyString => [EmptyString]
  | String a r =>
      if Ascii.eqb a c then EmptyString :: split_on c r
      else match split_on c r with
           | w :: ws => String a w :: ws
           | [] => [String a EmptyString]
           end
  end.

Definition upper_ascii (a : ascii) : ascii :=
  let n := nat_of_ascii a in
  if (97 <=? n)%nat && (n <=? 122)%nat then ascii_of_nat (n - 32) else a.

Definition lower_ascii (a : ascii) : ascii :=
  let n := nat_of_ascii a in
  if (65 <=? n)%nat && (n <=? 90)%nat then ascii_of_nat (n + 32) else a.

Fixpoint map_string (f : ascii -> ascii) (s : string) : string :=
  match s with
  | EmptyString => EmptyString
  | String a r => String (f a) (map_string f r)
  end.

Definition toUpperCase := map_string upper_ascii.
Definition toLowerCase := map_string lower_ascii.

(** [s.endsWith(suffix)]. *)
Definition endsWith (s suffix : string) : bool :=
  let n := String.length s in
  let m := String.length suffix in
  (m <=? n)%nat && String.eqb (substring (n - m) m s) suffix.

(** The names every plain object inherits from [Object.prototype]. *)
Definition prototype_members : list string :=
  [ "constructor"; "__defineGetter__"; "__defineSetter__"; "hasOwnProperty";
    "__lookupGetter__"; "__lookupSetter__"; "isPrototypeOf";
    "propertyIsEnumerable"; "toString"; "valueOf"; "__proto__";
    "toLocaleString" ].

Definition inherits (k : string) : bool :=
  existsb (String.eqb k) prototype_members.

(** What a read finds under an inherited name: a built-in function, or for
    [__proto__] the prototype itself.  It is truthy and has none of the
    attributes the class reads from a declaration ([label], [title],
    [format], [array]), and the class does nothing else with it; it stands
    here as a mapping with no entry. *)
Definition inherited : value := VObj [].

(** What a plain object with the own properties [ps] holds under [k]: an
    own property, else a member inherited from [Object.prototype], else
    [undefined]. *)
Definition member (ps : list (string * value)) (k : string) : value :=
  match lookup k ps with
  | Some x => x
  | None => if inherits k then inherited else VUndef
  end.

(** [o[k]] for a computed key [k].  On a receiver that is not a mapping,
    which the class has only for a configuration that is not well-shaped,
    the read is that of [get]: the members of the receiver's own prototype
    are left out. *)
Definition get_computed (o : value) (k : string) : completion value :=
  match o with
  | VObj ps => Ok (member ps k)
  | _ => get o k
  end.

(** [o[k] = v] for a computed key [k] on an object literal: the key
    [__proto__] sets the prototype and adds no property. *)
Definition set_computed (ps : list (string * value)) (k : string) (v : value)
  : list (string * value) :=
  if String.eqb k "__proto__" then ps else obj_set ps k v.


(** [Map.prototype.set] on the entries of a [Map] keyed by strings: an
    existing key keeps its place, a new one goes last. *)
Fixpoint map_set (m : list (string * value)) (k : string) (v : value)
  : list (string * value) :=
  match m with
  | [] => [(k, v)]
  | (k', v') :: r =>
      if String.eqb k' k then (k', v) :: r else (k', v') :: map_set r k v
  end.

(** [l.join(sep)]: [undefined] and [null] elements print as nothing. *)
Fixpoint array_join (sep : string) (l : list value) : string :=
  match l with
  | [] => ""
  | [x] => match x with VUndef | VNull => "" | _ => to_string x end
  | x :: r =>
      (match x with VUndef | VNull => "" | _ => to_string x end)
      ++ sep ++ array_join sep r
  end.

(** [l.includes(v)] for a list [l] of string literals. *)
Definition includes (l : list string) (v : value) : bool :=
  match v with
  | VStr s => existsb (String.eqb s) l
  | _ => false
  end.

End JS.

(** ** The class [ActorSchemaManager] *)

Module ActorSchemaManager.
Import JS.

(** [word => word.charAt(0).toUpperCase() + word.slice(1).toLowerCase()] *)
Definition capitalize (word : string) : string :=
  toUpperCase (substring 0 1 word)
  ++ toLowerCase (substring 1 (String.length word - 1) word).

(** [str.split('_').map(...).join(' ')]; a value without a [split] method
    raises. *)
Definition toTitleCase (str : value) : completion value :=
  match str with
  | VStr s => Ok (VStr (String.concat " " (map capitalize (split_on "_" s))))
  | _ => Throw
  end.

Definition inferFormat (fieldName fieldConfig : value) : completion value :=
  format <- get fieldConfig "format" ;;
  if truthy format then Ok format else
  array <- get fieldConfig "array" ;;
  if truthy array then Ok (VStr "array") else
  match fieldName with
  | VStr n =>
      if endsWith n "_url" || String.eqb n "website" then Ok (VStr "link")
      else if endsWith n "_links" then Ok (VStr "array")
      else Ok (VStr "text")
  | _ => Throw
  end.

Definition inferType (fieldConfig : value) : completion value :=
  type <- get fieldConfig "type" ;;
  if truthy type then Ok type else
  array <- get fieldConfig "array" ;;
  if truthy array then Ok (VStr "array") else
  Ok (VStr "string").

Definition inferEditor (fieldConfig : value) : completion value :=
  editor <- get fieldConfig "editor" ;;
  if truthy editor then Ok editor else
  t <- get fieldConfig "type" ;;
  let type := or_else t (VStr "string") in
  if is_str type "integer" || is_str type "number" then Ok (VStr "number")
  else if is_str type "boolean" then Ok (VStr "checkbox")
  else if is_str type "array" then Ok (VStr "stringList")
  else Ok (VStr "textfield").

(** The inner loop of [getAllDatasetFields]: one group merged into [fields]. *)
Definition mergeGroup (groupName : string) (groupFields : list (string * value))
    (fields : list (string * value)) : list (string * value) :=
  fold_left
    (fun fields p =>
       let '(fieldName, fieldConfig) := p in
       obj_set fields fieldName
         (VObj (obj_set (own_props fieldConfig) "_fromGroup" (VStr groupName))))
    groupFields fields.

(** One turn of the outer loop of [getAllDatasetFields]. *)
Definition mergeStep (fields : list (string * value)) (p : string * value)
  : completion (list (string * value)) :=
  let '(groupName, groupFields) := p in
  es <- entries groupFields ;;
  Ok (mergeGroup groupName es fields).

(** [Object.keys(fieldGroups)] followed by [fieldGroups[groupName]] is read
    here as the entries of [fieldGroups]. *)
Definition getAllDatasetFields (config : value) : completion value :=
  d <- get config "dataset" ;;
  let dataset := or_else d (VObj []) in
  f <- get dataset "fields" ;;
  let fields := own_props (or_else f (VObj [])) in
  g <- get dataset "field_groups" ;;
  let fieldGroups := or_else g (VObj []) in
  fields' <- foldM mergeStep (own_props fieldGroups) fields ;;
  Ok (VObj fields').

(** [if (fieldConfig.k !== undefined) field.k = fieldConfig.k] *)
Definition copyIfDefined (fieldConfig : value) (field : list (string * value))
    (k : string) : completion (list (string * value)) :=
  x <- get fieldConfig k ;;
  Ok (if defined x then obj_set field k x else field).

Definition inputProperty (fieldName : string) (fieldConfig : value)
  : completion value :=
  t0 <- get fieldConfig "title" ;;
  title <- (if truthy t0 then Ok t0 else toTitleCase (VStr fieldName)) ;;
  type <- get fieldConfig "type" ;;
  description <- get fieldConfig "description" ;;
  desc <- get fieldConfig "desc" ;;
  editor <- inferEditor fieldConfig ;;
  let field :=
    [ ("title", title);
      ("type", or_else type (VStr "string"));
      ("description", or_else description (or_else desc (VStr "")));
      ("editor", editor) ] in
  field' <- foldM (copyIfDefined fieldConfig)
    ["sectionCaption"; "prefill"; "default"; "minLength"; "maxLength";
     "minimum"; "maximum"; "enum"] field ;;
  Ok (VObj field').

Definition generateInputSchema (config : value) : completion value :=
  i <- get config "input" ;;
  let inputConfig := or_else i (VObj []) in
  a <- get config "actor" ;;
  let actorConfig := or_else a (VObj []) in
  cf <- get inputConfig "fields" ;;
  let customFields := or_else cf (VObj []) in
  es <- entries customFields ;;
  properties <- foldM
    (fun properties p =>
       let '(fieldName, fieldConfig) := p in
       field <- inputProperty fieldName fieldConfig ;;
       Ok (obj_set properties fieldName field))
    es [] ;;
  t0 <- get actorConfig "title" ;;
  title <- (if truthy t0 then Ok t0 else
            name <- get actorConfig "name" ;;
            toTitleCase (or_else name (VStr "Actor Input"))) ;;
  required <- get inputConfig "required" ;;
  Ok (VObj [ ("title", title);
             ("type", VStr "object");
             ("schemaVersion", VNum 1);
             ("properties", VObj properties);
             ("required", or_else required (VArr [])) ]).

Definition datasetField (fieldName : string) (fieldConfig : value)
  : completion value :=
  fieldType <- inferType fieldConfig ;;
  nullable <- get fieldConfig "nullable" ;;
  t0 <- get fieldConfig "title" ;;
  title <- (if truthy t0 then Ok t0 else toTitleCase (VStr fieldName)) ;;
  description <- get fieldConfig "description" ;;
  desc <- get fieldConfig "desc" ;;
  let field :=
    [ ("type", if is_false nullable then fieldType
               else VArr [fieldType; VStr "null"]);
      ("title", title);
      ("description", or_else description (or_else desc (VStr ""))) ] in
  if is_str fieldType "array" then
    itemType <- get fieldConfig "itemType" ;;
    Ok (VObj (obj_set field "items"
                (VObj [("type", or_else itemType (VStr "string"))])))
  else Ok (VObj field).

(** One turn of the loop over [viewFields]: [allFields[fieldName]] is a
    keyed read, [displayProperties[fieldName] = ...] a keyed assignment. *)
Definition displayProperty (allFields : value)
    (displayProperties : list (string * value)) (fieldName : value)
  : completion (list (string * value)) :=
  fieldConfig <- get_computed allFields (to_string fieldName) ;;
  if negb (truthy fieldConfig) then Ok displayProperties else
  l0 <- get fieldConfig "label" ;;
  label <- (if truthy l0 then Ok l0 else
            t0 <- get fieldConfig "title" ;;
            if truthy t0 then Ok t0 else toTitleCase fieldName) ;;
  format <- inferFormat fieldName fieldConfig ;;
  Ok (set_computed displayProperties (to_string fieldName)
        (VObj [("label", label); ("format", format)])).

Definition datasetView (allFields : value) (viewName : string)
    (viewConfig : value) : completion value :=
  vf <- get viewConfig "fields" ;;
  let viewFields := or_else vf (VArr []) in
  names <- iterate viewFields ;;
  displayProperties <- foldM (displayProperty allFields) names [] ;;
  t0 <- get viewConfig "title" ;;
  title <- (if truthy t0 then Ok t0 else toTitleCase (VStr viewName)) ;;
  component <- get viewConfig "component" ;;
  Ok (VObj [ ("title", title);
             ("transformation", VObj [("fields", viewFields)]);
             ("display",
              VObj [ ("component", or_else component (VStr "table"));
                     ("properties", VObj displayProperties) ]) ]).

Definition generateDatasetSchema (config : value) : completion value :=
  allFields <- getAllDatasetFields config ;;
  d <- get config "dataset" ;;
  let dataset := or_else d (VObj []) in
  v <- get dataset "views" ;;
  let views := or_else v (VObj []) in
  fes <- entries allFields ;;
  fieldsProperties <- foldM
    (fun fieldsProperties p =>
       let '(fieldName, fieldConfig) := p in
       field <- datasetField fieldName fieldConfig ;;
       Ok (obj_set fieldsProperties fieldName field))
    fes [] ;;
  ves <- entries views ;;
  viewsOutput <- foldM
    (fun viewsOutput p =>
       let '(viewName, viewConfig) := p in
       view <- datasetView allFields viewName viewConfig ;;
       Ok (obj_set viewsOutput viewName view))
    ves [] ;;
  Ok (VObj [ ("actorSpecification", VNum 1);
             ("fields",
              VObj [ ("$schema", VStr "http://json-schema.org/draft-07/schema#");
                     ("type", VStr "object");
                     ("properties", VObj fieldsProperties) ]);
             ("views", VObj viewsOutput) ]).

(** One turn of the loop of [generateDefaultInput]. *)
Definition deriveDefault (defaults : list (string * value))
    (p : string * value) : completion (list (string * value)) :=
  let '(fieldName, fieldConfig) := p in
  d <- get fieldConfig "default" ;;
  if defined d then Ok (obj_set defaults fieldName d) else
  pf <- get fieldConfig "prefill" ;;
  if defined pf then Ok (obj_set defaults fieldName pf) else
  type <- get fieldConfig "type" ;;
  if is_str type "boolean" then Ok (obj_set defaults fieldName (VBool false))
  else if is_str type "integer" || is_str type "number"
       then Ok (obj_set defaults fieldName (VNum 0))
  else if is_str type "array" then Ok (obj_set defaults fieldName (VArr []))
  else Ok defaults.

Definition generateDefaultInput (config : value) : completion value :=
  i <- get config "input" ;;
  let inputConfig := or_else i (VObj []) in
  cf <- get inputConfig "fields" ;;
  let customFields := or_else cf (VObj []) in
  es <- entries customFields ;;
  defaults <- foldM deriveDefault es [] ;;
  dd <- get inputConfig "defaults" ;;
  Ok (VObj (if truthy dd then assign defaults dd else defaults)).

(** The result of [validate]. *)
Record validation : Type := { valid : bool; errors : list string }.

Definition msgEmptyConfig : string := "Config is empty or undefined".
Definition msgMissingName : string := "Missing required field: schemas.actor.name".
Definition msgUnknownField (viewName : string) (fieldName : value) : string :=
  "View '" ++ viewName ++ "' references unknown field '"
  ++ to_string fieldName ++ "'".
Definition msgUnknownGroup (fieldName : string) (group : value) : string :=
  "Input field '" ++ fieldName ++ "' references unknown field_group '"
  ++ to_string group ++ "'".

(** The test [!allFields[fieldName]] of the loop over the names of a view. *)
Definition checkViewField (allFields : value) (viewName : string)
    (errors : list string) (fieldName : value) : completion (list string) :=
  x <- get_computed allFields (to_string fieldName) ;;
  Ok (if truthy x then errors else (errors ++ [msgUnknownField viewName fieldName])%list).

Definition checkView (allFields : value) (errors : list string)
    (p : string * value) : completion (list string) :=
  let '(viewName, viewConfig) := p in
  vf <- get viewConfig "fields" ;;
  names <- iterate (or_else vf (VArr [])) ;;
  foldM (checkViewField allFields viewName) names errors.

(** The test [fieldConfig.group && !fieldGroups[fieldConfig.group]]. *)
Definition checkInputField (fieldGroups : value) (errors : list string)
    (p : string * value) : completion (list string) :=
  let '(fieldName, fieldConfig) := p in
  group <- get fieldConfig "group" ;;
  if truthy group then
    x <- get_computed fieldGroups (to_string group) ;;
    Ok (if truthy x then errors else (errors ++ [msgUnknownGroup fieldName group])%list)
  else Ok errors.

Definition validate (config : value) : completion validation :=
  if negb (truthy config) then
    Ok {| valid := false; errors := [msgEmptyConfig] |}
  else
  a <- get config "actor" ;;
  name <- get_opt a "name" ;;
  let errors1 := if truthy name then [] else [msgMissingName] in
  allFields <- getAllDatasetFields config ;;
  d <- get config "dataset" ;;
  v <- get_opt d "views" ;;
  let views := or_else v (VObj []) in
  ves <- entries views ;;
  errors2 <- foldM (checkView allFields) ves errors1 ;;
  g <- get_opt d "field_groups" ;;
  let fieldGroups := or_else g (VObj []) in
  i <- get config "input" ;;
  f <- get_opt i "fields" ;;
  let inputFields := or_else f (VObj []) in
  ies <- entries inputFields ;;
  errors3 <- foldM (checkInputField fieldGroups) ies errors2 ;;
  Ok {| valid := Nat.eqb (List.length errors3) 0; errors := errors3 |}.

(** One turn of the loop of [getInputGroupMapping]. *)
Definition groupMappingStep (mapping : list (string * value))
    (p : string * value) : completion (list (string * value)) :=
  let '(fieldName, fieldConfig) := p in
  group <- get fieldConfig "group" ;;
  Ok (if truthy group then map_set mapping fieldName group else mapping).

(** The returned [Map], as its entries in insertion order. *)
Definition getInputGroupMapping (config : value)
  : completion (list (string * value)) :=
  i <- get config "input" ;;
  f <- get_opt i "fields" ;;
  let inputFields := or_else f (VObj []) in
  es <- entries inputFields ;;
  foldM groupMappingStep es [].

Definition generateActorJson (config : value) : completion value :=
  a <- get config "actor" ;;
  let actorConfig := or_else a (VObj []) in
  name <- get actorConfig "name" ;;
  version <- get actorConfig "version" ;;
  build_tag <- get actorConfig "build_tag" ;;
  environment_variables <- get actorConfig "environment_variables" ;;
  Ok (VObj [ ("actorSpecification", VNum 1);
             ("name", or_else name (VStr "unnamed-actor"));
             ("version", or_else version (VStr "0.1"));
             ("buildTag", or_else build_tag (VStr "latest"));
             ("environmentVariables", or_else environment_variables (VObj []));
             ("input", VStr "./input_schema.json");
             ("output", VStr "./output_schema.json");
             ("storages", VObj [("dataset", VStr "./dataset_schema.json")]) ]).

Definition generateOutputSchema (config : value) : completion value :=
  o <- get config "output" ;;
  let outputConfig := or_else o (VObj []) in
  title <- get outputConfig "title" ;;
  description <- get outputConfig "description" ;;
  properties <- get outputConfig "properties" ;;
  Ok (VObj [ ("actorOutputSchemaVersion", VNum 1);
             ("title", or_else title (VStr "Scraper Results"));
             ("description", or_else description (VStr "Scraper Results"));
             ("properties",
              or_else properties
                (VObj [ ("results",
                         VObj [ ("type", VStr "string");
                                ("title", VStr "Results");
                                ("template",
                                 VStr "{{links.apiDefaultDatasetUrl}}/items") ])
                      ])) ]).

(** *** Writing the documents

    A path is kept as written: the value handed over by the caller, or a
    [path.join] of a path and a literal.  The calls that change the file
    system are recorded in order, the one that raises included;
    [fs.existsSync] is answered by the state of the file system before the
    call, and [raises e] tells whether the file system makes the call [e]
    raise.  [WriteFileSync p doc] stands for writing
    [JSON.stringify(doc, null, 2) + '\n'] to [p].  Console output is not
    recorded. *)

Inductive path : Type :=
| Raw (v : value)
| Join (p : path) (segment : string).

Inductive event : Type :=
| MkdirSync (p : path)
| WriteFileSync (p : path) (doc : value).

(** A computation that records events and may raise. *)
Definition io (A : Type) : Type := (list event * completion A)%type.

Definition ret {A : Type} (a : A) : io A := ([], Ok a).

Definition lift {A : Type} (c : completion A) : io A := ([], c).

(** A call into [fs]: recorded, and raising when the file system says so. *)
Definition call (raises : event -> bool) (e : event) : io unit :=
  ([e], if raises e then Throw else Ok tt).

Definition bindIO {A B : Type} (m : io A) (k : A -> io B) : io B :=
  match m with
  | (t, Ok a) => let '(t', r) := k a in ((t ++ t')%list, r)
  | (t, Throw) => (t, Throw)
  end.

Notation "x <~ m ;; k" := (bindIO m (fun x => k))
  (at level 61, m at next level, right associativity).

(** The fields of an instance.  [basePath] is a string on every instance:
    [path.join] raises on anything else, and the constructor with it. *)
Record manager : Type := {
  config : value;
  basePath : string;
  dryRun : value;
  verbose : value;
  actorDir : path
}.

(** [new ActorSchemaManager(config, options)]; [cwd] is [process.cwd()]. *)
Definition construct (cwd : string) (config options : value)
  : completion manager :=
  let options := match options with VUndef => VObj [] | _ => options end in
  b <- get options "basePath" ;;
  d <- get options "dryRun" ;;
  v <- get options "verbose" ;;
  match or_else b (VStr cwd) with
  | VStr basePath =>
      Ok {| config := config;
            basePath := basePath;
            dryRun := or_else d (VBool false);
            verbose := or_else v (VBool false);
            actorDir := Join (Raw (VStr basePath)) ".actor" |}
  | _ => Throw
  end.

Definition ensureActorDir (existsSync : path -> bool) (raises : event -> bool)
    (m : manager) : io unit :=
  if negb (existsSync (actorDir m)) then call raises (MkdirSync (actorDir m))
  else ret tt.

Definition writeJsonFile (raises : event -> bool) (filePath : path)
    (content : value) : io unit :=
  call raises (WriteFileSync filePath content).

Definition generateAllSchemas (existsSync : path -> bool)
    (raises : event -> bool) (m : manager) : io value :=
  actor <~ lift (generateActorJson (config m)) ;;
  inputSchema <~ lift (generateInputSchema (config m)) ;;
  datasetSchema <~ lift (generateDatasetSchema (config m)) ;;
  outputSchema <~ lift (generateOutputSchema (config m)) ;;
  let schemas :=
    VObj [ ("actor", actor); ("inputSchema", inputSchema);
           ("datasetSchema", datasetSchema); ("outputSchema", outputSchema) ] in
  _ <~ (if negb (truthy (dryRun m)) then
          _ <~ ensureActorDir existsSync raises m ;;
          _ <~ writeJsonFile raises (Join (actorDir m) "actor.json") actor ;;
          _ <~ writeJsonFile raises (Join (actorDir m) "input_schema.json")
                 inputSchema ;;
          _ <~ writeJsonFile raises (Join (actorDir m) "dataset_schema.json")
                 datasetSchema ;;
          writeJsonFile raises (Join (actorDir m) "output_schema.json")
            outputSchema
        else ret tt) ;;
  ret schemas.

Definition generateInputFile (raises : event -> bool) (m : manager)
    (outputPath : value) : io value :=
  defaults <~ lift (generateDefaultInput (config m)) ;;
  let targetPath :=
    if truthy outputPath then Raw outputPath
    else Join (Raw (VStr (basePath m))) "INPUT.json" in
  _ <~ (if negb (truthy (dryRun m)) then writeJsonFile raises targetPath defaults
        else ret tt) ;;
  ret defaults.

End ActorSchemaManager.

(** ** The command-line tool: [src/Websy.mjs] *)

Module Websy.
Import JS ActorSchemaManager.

Definition VALID_CATEGORIES : list string :=
  [ "AI"; "AGENTS"; "AUTOMATION"; "BUSINESS"; "COVID_19"; "DEVELOPER_EXAMPLES";
    "DEVELOPER_TOOLS"; "ECOMMERCE"; "FOR_CREATORS"; "GAMES"; "JOBS";
    "LEAD_GENERATION"; "MARKETING"; "NEWS"; "SEO_TOOLS"; "SOCIAL_MEDIA";
    "TRAVEL"; "VIDEOS"; "REAL_ESTATE"; "SPORTS"; "EDUCATION"; "INTEGRATIONS";
    "OTHER"; "OPEN_SOURCE"; "MCP_SERVERS" ].

(** The result of [validateCategories]: [{ valid: true }] has no message. *)
Record categoriesResult : Type := {
  categoriesValid : bool;
  categoriesMessage : option string
}.

Definition validateCategories (categories : value) : categoriesResult :=
  match categories with
  | VArr l =>
      if (3 <? List.length l)%nat then
        {| categoriesValid := false;
           categoriesMessage := Some "Maximum of 3 categories allowed" |}
      else
        let invalidCategories :=
          filter (fun cat => negb (includes VALID_CATEGORIES cat)) l in
        if (0 <? List.length invalidCategories)%nat then
          {| categoriesValid := false;
             categoriesMessage :=
               Some ("Invalid categories: "
                     ++ array_join ", " invalidCategories
                     ++ ". Valid categories are: "
                     ++ String.concat ", " VALID_CATEGORIES) |}
        else {| categoriesValid := true; categoriesMessage := None |}
  | _ =>
      {| categoriesValid := false;
         categoriesMessage := Some "Categories must be an array of strings" |}
  end.

(** [formatDuration(ms)] on [null]/[undefined] ([None]) and on a whole
    number of milliseconds that is a safe integer (below 2^53 in magnitude):
    there the division in doubles followed by [Math.floor] is the floor
    division of [Z], [%] its truncating remainder, and the numbers are
    printed in plain decimal. *)
Definition formatDuration (ms : option Z) : string :=
  match ms with
  | None => "N/A"
  | Some ms =>
      let seconds := (ms / 1000)%Z in
      let minutes := (seconds / 60)%Z in
      let hours := (minutes / 60)%Z in
      let days := (hours / 24)%Z in
      if (0 <? days)%Z then
        Z_to_string days ++ "d " ++ Z_to_string (Z.rem hours 24) ++ "h"
      else if (0 <? hours)%Z then
        Z_to_string hours ++ "h " ++ Z_to_string (Z.rem minutes 60) ++ "m"
      else if (0 <? minutes)%Z then
        Z_to_string minutes ++ "m " ++ Z_to_string (Z.rem seconds 60) ++ "s"
      else Z_to_string seconds ++ "s"
  end.

(** How a command ends: it returns, or [process.exit(code)] is called. *)
Inductive ending : Type :=
| Returns
| Exits (code : nat).

(** The action of [gen-schemas] once [loadSpec] has answered ([loaded]):
    anything raised inside is caught and ends in [process.exit(1)]. *)
Definition genSchemas (cwd : string) (existsSync : path -> bool)
    (raises : event -> bool)
    (loaded : completion value) (cmdDryRun cmdVerbose : value)
  : list event * ending :=
  match loaded with
  | Throw => ([], Exits 1)
  | Ok yamlData =>
      match get yamlData "schemas" with
      | Throw => ([], Exits 1)
      | Ok schemas =>
          if negb (truthy schemas) then ([], Exits 1) else
          match construct cwd schemas
                  (VObj [("dryRun", cmdDryRun); ("verbose", cmdVerbose)]) with
          | Throw => ([], Exits 1)
          | Ok m =>
              match validate (config m) with
              | Throw => ([], Exits 1)
              | Ok validation =>
                  if negb (valid validation) then ([], Exits 1) else
                  match generateAllSchemas existsSync raises m with
                  | (t, Throw) => (t, Exits 1)
                  | (t, Ok _) => (t, Returns)
                  end
              end
          end
      end
  end.

(** The action of [gen-input] once [loadSpec] has answered. *)
Definition genInput (cwd : string) (raises : event -> bool)
    (loaded : completion value) (cmdOutput cmdDryRun cmdVerbose : value)
  : list event * ending :=
  match loaded with
  | Throw => ([], Exits 1)
  | Ok yamlData =>
      match get yamlData "schemas" with
      | Throw => ([], Exits 1)
      | Ok schemas =>
          if negb (truthy schemas) then ([], Exits 1) else
          match construct cwd schemas
                  (VObj [("dryRun", cmdDryRun); ("verbose", cmdVerbose)]) with
          | Throw => ([], Exits 1)
          | Ok m =>
              match generateInputFile raises m cmdOutput with
              | (t, Throw) => (t, Exits 1)
              | (t, Ok _) => (t, Returns)
              end
          end
      end
  end.

End Websy.

(** ** Reading a configuration: sections, shapes and the words of the
       specification *)

Module Spec.
Import JS ActorSchemaManager.

(** A property read that yields [undefined] where [get] raises. *)
Definition attr (v : value) (k : string) : value :=
  match get v k with Ok x => x | Throw => VUndef end.

(** A section access: an absent or empty section is the empty mapping. *)
Definition sectionOf (v : value) (k : string) : value :=
  or_else (attr v k) (VObj []).

Definition baseFields (config : value) : list (string * value) :=
  own_props (sectionOf (sectionOf config "dataset") "fields").
Definition fieldGroups (config : value) : list (string * value) :=
  own_props (sectionOf (sectionOf config "dataset") "field_groups").
Definition views (config : value) : list (string * value) :=
  own_props (sectionOf (sectionOf config "dataset") "views").
Definition inputFields (config : value) : list (string * value) :=
  own_props (sectionOf (sectionOf config "input") "fields").
Definition inputDefaults (config : value) : list (string * value) :=
  own_props (sectionOf (sectionOf config "input") "defaults").
Definition actorName (config : value) : value :=
  attr (sectionOf config "actor") "name".
Definition actorTitle (config : value) : value :=
  attr (sectionOf config "actor") "title".

(** An attribute a declaration sets explicitly. *)
Definition explicit (decl : value) (k : string) : option value :=
  match lookup k (own_props decl) with
  | Some VUndef | None => None
  | Some x => Some x
  end.

(** The last entry written for a key, in the order of the list. *)
Fixpoint last_write {A : Type} (k : string) (l : list (string * A)) : option A :=
  match l with
  | [] => None
  | (k', a) :: r =>
      match last_write k r with
      | Some x => Some x
      | None => if String.eqb k' k then Some a else None
      end
  end.

(** Every field a group declares, tagged with the group, in the order the
    groups and the fields inside each group are enumerated. *)
Definition writesOf (groups : list (string * value))
  : list (string * (string * value)) :=
  flat_map (fun g => map (fun f => (fst f, (fst g, snd f))) (own_props (snd g)))
    groups.

Definition groupWrites (config : value) : list (string * (string * value)) :=
  writesOf (fieldGroups config).

(** A group field: the declaration with [_fromGroup] set. *)
Definition tagged (groupName : string) (decl : value) : value :=
  VObj (obj_set (own_props decl) "_fromGroup" (VStr groupName)).

(** The aggregated field set in the words of the specification: the base
    fields, overwritten by the group fields, last writer first. *)
Definition aggregated (config : value) (k : string) : option value :=
  match last_write k (groupWrites config) with
  | Some (g, decl) => Some (tagged g decl)
  | None => lookup k (baseFields config)
  end.

Definition nullish (v : value) : bool :=
  match v with VUndef | VNull => true | _ => false end.


Definition is_obj (v : value) : bool :=
  match v with VObj _ => true | _ => false end.

Definition is_string (v : value) : bool :=
  match v with VStr _ => true | _ => false end.

Fixpoint unique (ks : list string) : bool :=
  match ks with
  | [] => true
  | k :: r => negb (existsb (String.eqb k) r) && unique r
  end.

(** A mapping, as every parsed mapping has its keys once, whose values all
    satisfy [p]. *)
Definition mapping_of (p : value -> bool) (v : value) : bool :=
  match v with
  | VObj ps => unique (map fst ps) && forallb (fun e => p (snd e)) ps
  | _ => false
  end.

(** An optional section: absent, empty ([null]) or of the given shape. *)
Definition optional (p : value -> bool) (v : value) : bool :=
  nullish v || p v.

Definition is_names (v : value) : bool :=
  match v with VArr l => forallb is_string l | _ => false end.

Definition is_view (v : value) : bool :=
  is_obj v && optional is_names (attr v "fields").

(** The dataset section of the data model: declarations are mappings, groups
    are mappings of declarations, a view lists field names. *)
Definition datasetShape (config : value) : bool :=
  is_obj config &&
  optional
    (fun d =>
       is_obj d
       && optional (mapping_of is_obj) (attr d "fields")
       && optional (mapping_of (mapping_of is_obj)) (attr d "field_groups")
       && optional (mapping_of is_view) (attr d "views"))
    (attr config "dataset").

(** The input section of the data model. *)
Definition inputShape (config : value) : bool :=
  is_obj config &&
  optional
    (fun i =>
       is_obj i
       && optional (mapping_of is_obj) (attr i "fields")
       && optional (mapping_of (fun _ => true)) (attr i "defaults"))
    (attr config "input").

(** Resolved type to editor, in the words of the specification. *)
Definition editorForType (type : value) : value :=
  if is_str type "integer" || is_str type "number" then VStr "number"
  else if is_str type "boolean" then VStr "checkbox"
  else if is_str type "array" then VStr "stringList"
  else VStr "textfield".

(** The type an input declaration states, ["string"] when it states none. *)
Definition declaredType (decl : value) : value :=
  or_else (attr decl "type") (VStr "string").

(** Type to zero value, in the words of the specification. *)
Definition zeroValue (type : value) : option value :=
  if is_str type "boolean" then Some (VBool false)
  else if is_str type "integer" || is_str type "number" then Some (VNum 0)
  else if is_str type "array" then Some (VArr [])
  else None.

(** Default precedence, in the words of the specification. *)
Definition derivedDefault (decl : value) : option value :=
  match explicit decl "default" with
  | Some d => Some d
  | None =>
      match explicit decl "prefill" with
      | Some p => Some p
      | None => zeroValue (attr decl "type")
      end
  end.

(** The defaults mapping in the words of the specification: the override of
    [input.defaults] first, else what the declaration of the field derives. *)
Definition expectedDefault (config : value) (k : string) : option value :=
  match lookup k (inputDefaults config) with
  | Some v => Some v
  | None =>
      match lookup k (inputFields config) with
      | Some decl => derivedDefault decl
      | None => None
      end
  end.

(** The field names a view lists. *)
Definition viewNames (view : value) : list value :=
  match sectionOf view "fields" with VArr l => l | _ => [] end.

(** The references of one view that [known] does not resolve. *)
Definition unresolved (known : string -> bool) (view : string * value)
  : list (string * value) :=
  map (fun n => (fst view, n))
    (filter (fun n => negb (known (to_string n))) (viewNames (snd view))).

(** [k] names an aggregated field. *)
Definition isField (config : value) (k : string) : bool :=
  match aggregated config k with Some _ => true | None => false end.



(** [actor.name] is given. *)
Definition actorNamed (config : value) : bool := truthy (actorName config).

(** The error of the first check. *)
Definition actorErrors (config : value) : list string :=
  if actorNamed config then [] else [msgMissingName].

(** A keyed read of the aggregated field set finds something under [k]: an
    aggregated field, or a member every mapping inherits. *)
Definition reaches (config : value) (k : string) : bool :=
  isField config k || inherits k.

(** A keyed read of the field-groups finds something under [k]. *)
Definition reachesGroup (config : value) (k : string) : bool :=
  has_key k (fieldGroups config) || inherits k.

(** The view references and the group references that a keyed read does
    not resolve, in the order the mappings are enumerated, and the errors
    on them. *)
Definition reportedViewRefs (config : value) : list (string * value) :=
  flat_map (unresolved (reaches config)) (views config).

Definition reportedGroupRefs (config : value) : list (string * value) :=
  flat_map
    (fun f =>
       let g := attr (snd f) "group" in
       if truthy g && negb (reachesGroup config (to_string g))
       then [(fst f, g)] else [])
    (inputFields config).

Definition viewReports (config : value) : list string :=
  map (fun p => msgUnknownField (fst p) (snd p)) (reportedViewRefs config).
Definition groupReports (config : value) : list string :=
  map (fun p => msgUnknownGroup (fst p) (snd p)) (reportedGroupRefs config).




(** Paths into the generated dataset schema. *)
Definition schemaField (schema : value) (name : string) : value :=
  attr (attr (attr schema "fields") "properties") name.
Definition schemaView (schema : value) (name : string) : value :=
  attr (attr schema "views") name.
Definition displayProperties (view : value) : list (string * value) :=
  own_props (attr (attr view "display") "properties").

(** *** Words for the further properties *)

(** [c] occurs in [s]. *)
Fixpoint has_char (c : ascii) (s : string) : bool :=
  match s with
  | EmptyString => false
  | String a r => Ascii.eqb a c || has_char c r
  end.

(** Every character of [s] is an ASCII character. *)
Fixpoint all_ascii (s : string) : bool :=
  match s with
  | EmptyString => true
  | String a r => (nat_of_ascii a <? 128)%nat && all_ascii r
  end.

(** The group an input field names, if it names one. *)
Definition groupEntry (f : string * value) : list (string * value) :=
  let g := attr (snd f) "group" in
  if truthy g then [(fst f, g)] else [].


(** Title case, one character at a time: an underscore becomes a space and
    starts a word; the first character of a word is put in upper case,
    every other one in lower case. *)
Fixpoint titleChars (start : bool) (s : string) : string :=
  match s with
  | EmptyString => EmptyString
  | String a r =>
      if Ascii.eqb a "_" then String " " (titleChars true r)
      else String (if start then upper_ascii a else lower_ascii a)
                  (titleChars false r)
  end.




(** The four documents, generated in the order of [generateAllSchemas]. *)
Definition generatedDocuments (config : value) : completion value :=
  actor <- generateActorJson config ;;
  inputSchema <- generateInputSchema config ;;
  datasetSchema <- generateDatasetSchema config ;;
  outputSchema <- generateOutputSchema config ;;
  Ok (VObj [ ("actor", actor); ("inputSchema", inputSchema);
             ("datasetSchema", datasetSchema); ("outputSchema", outputSchema) ]).

(** The calls up to and including the first one that raises. *)
Fixpoint untilRaise (raises : event -> bool) (calls : list event) : list event :=
  match calls with
  | [] => []
  | e :: r => e :: (if raises e then [] else untilRaise raises r)
  end.

(** The four documents of [generateAllSchemas], in the order written. *)
Definition schemaFiles (dir : path) (schemas : value) : list event :=
  [ WriteFileSync (Join dir "actor.json") (attr schemas "actor");
    WriteFileSync (Join dir "input_schema.json") (attr schemas "inputSchema");
    WriteFileSync (Join dir "dataset_schema.json") (attr schemas "datasetSchema");
    WriteFileSync (Join dir "output_schema.json") (attr schemas "outputSchema") ].

End Spec.

(** ** Sample configurations *)

Module Samples.
Import JS.

Definition demo : value :=
  VObj
    [ ("actor", VObj [("name", VStr "demo")]);
      ("input",
       VObj
         [ ("fields",
            VObj
              [ ("q", VObj [("group", VStr "bad")]);
                ("b", VObj [ ("type", VStr "boolean"); ("default", VBool true);
                             ("prefill", VBool false) ]);
                ("l", VObj [("array", VBool true)]);
                ("m", VObj [("type", VStr "array")]);
                ("s", VObj [("type", VStr "string")]) ]);
           ("defaults", VObj [("q", VStr "x")]) ]);
      ("dataset",
       VObj
         [ ("fields",
            VObj
              [ ("price", VObj [("type", VStr "number")]);
                ("tags", VObj [ ("array", VBool true);
                                ("nullable", VBool false);
                                ("itemType", VStr "integer") ]);
                ("a", VObj [("type", VStr "string")]) ]);
           ("field_groups",
            VObj
              [ ("g1", VObj [ ("b", VObj [("type", VStr "array")]);
                              ("a", VObj [("type", VStr "integer")]) ]);
                ("g2", VObj [ ("b", VObj [("title", VStr "B")]) ]) ]);
           ("views",
            VObj
              [ ("overview",
                 VObj [("fields", VArr [VStr "price"; VStr "z"; VStr "b"])]) ])
         ]) ].

Definition arrayShorthand : value := VObj [("array", VBool true)].







End Samples.

Import JS ActorSchemaManager Spec.

(** ** The class on small inputs *)

Section WorkedExamples.

Example toTitleCase_start_urls : toTitleCase (VStr "start_urls") = Ok (VStr "Start Urls").
Proof. reflexivity. Qed.

Example toTitleCase_id : toTitleCase (VStr "id") = Ok (VStr "Id").
Proof. reflexivity. Qed.

Example toTitleCase_empty : toTitleCase (VStr "") = Ok (VStr "").
Proof. reflexivity. Qed.

Example toTitleCase_mixed_case :
  toTitleCase (VStr "hELLO__wORLD") = Ok (VStr "Hello  World").
Proof. reflexivity. Qed.

Example toTitleCase_number_raises : toTitleCase (VNum 7) = Throw.
Proof. reflexivity. Qed.

Example inferFormat_url :
  inferFormat (VStr "profile_url") (VObj []) = Ok (VStr "link").
Proof. reflexivity. Qed.

Example inferFormat_links :
  inferFormat (VStr "social_links") (VObj []) = Ok (VStr "array").
Proof. reflexivity. Qed.

Example inferType_empty : inferType (VObj []) = Ok (VStr "string").
Proof. reflexivity. Qed.

Example inferEditor_empty : inferEditor (VObj []) = Ok (VStr "textfield").
Proof. reflexivity. Qed.

Example nullable_default :
  datasetField "f" (VObj [("type", VStr "string")]) =
  Ok (VObj [ ("type", VArr [VStr "string"; VStr "null"]);
             ("title", VStr "F"); ("description", VStr "") ]).
Proof. reflexivity. Qed.

Example nullable_false :
  datasetField "f" (VObj [("type", VStr "string"); ("nullable", VBool false)]) =
  Ok (VObj [ ("type", VStr "string");
             ("title", VStr "F"); ("description", VStr "") ]).
Proof. reflexivity. Qed.

Example end_to_end_price :
  exists schema,
    generateDatasetSchema
      (VObj [ ("actor", VObj [("name", VStr "demo")]);
              ("dataset",
               VObj [ ("fields", VObj [("price", VObj [("type", VStr "number")])]);
                      ("views",
                       VObj [("overview", VObj [("fields", VArr [VStr "price"])])])
                    ]) ]) = Ok schema /\
    attr (schemaField schema "price") "type" = VArr [VStr "number"; VStr "null"] /\
    displayProperties (schemaView schema "overview")
    = [("price", VObj [("label", VStr "Price"); ("format", VStr "text")])].
Proof. eexists. repeat split. Qed.

Example input_property_omits_absent_keys :
  inputProperty "max_items" (VObj [("type", VStr "integer"); ("maximum", VNum 10)]) =
  Ok (VObj [ ("title", VStr "Max Items"); ("type", VStr "integer");
             ("description", VStr ""); ("editor", VStr "number");
             ("maximum", VNum 10) ]).
Proof. reflexivity. Qed.

Example validate_null_group_raises :
  validate (VObj [("dataset", VObj [("field_groups", VObj [("g", VNull)])])]) = Throw.
Proof. reflexivity. Qed.

Example property_order_of_index_keys :
  map fst (obj_set [("1", VNull); ("3", VNull); ("a", VNull)] "2" VNull)
  = ["1"; "2"; "3"; "a"].
Proof. reflexivity. Qed.

End WorkedExamples.

(** ** Properties of the value operations *)

Section ValueFacts.

Lemma bind_ok {A B : Type} (a : A) (k : A -> completion B) : bind (Ok a) k = k a.
Proof. reflexivity. Qed.

Lemma foldM_cons {A S : Type} (step : S -> A -> completion S) (a : A)
    (r : list A) (s : S) :
  foldM step (a :: r) s = bind (step s a) (fun s' => foldM step r s').
Proof. reflexivity. Qed.

Lemma get_attr (v : value) (k : string) :
  nullish v = false -> get v k = Ok (attr v k).
Proof.
  unfold attr. destruct v; simpl; try discriminate; intros _; try reflexivity.
  - destruct (String.eqb k "length"); reflexivity.
  - destruct (String.eqb k "length"); reflexivity.
Qed.

Lemma truthy_not_nullish (v : value) : truthy v = true -> nullish v = false.
Proof. destruct v; simpl; intros H; congruence. Qed.

Lemma sectionOf_truthy (v : value) (k : string) : truthy (sectionOf v k) = true.
Proof.
  unfold sectionOf, or_else. destruct (truthy (attr v k)) eqn:E; [exact E | reflexivity].
Qed.

Lemma get_section (v : value) (k k' : string) :
  get (sectionOf v k) k' = Ok (attr (sectionOf v k) k').
Proof. apply get_attr, truthy_not_nullish, sectionOf_truthy. Qed.

Lemma entries_truthy (v : value) : truthy v = true -> entries v = Ok (own_props v).
Proof. destruct v; simpl; intros H; congruence. Qed.

Lemma attr_obj (ps : list (string * value)) (k : string) :
  attr (VObj ps) k = match lookup k ps with Some x => x | None => VUndef end.
Proof. reflexivity. Qed.

Lemma has_key_lookup (k : string) (ps : list (string * value)) :
  has_key k ps = true <-> exists v, lookup k ps = Some v.
Proof.
  unfold has_key. destruct (lookup k ps) as [v|].
  - split; [intros _; now exists v | reflexivity].
  - split; [discriminate | intros [v H]; discriminate].
Qed.

Lemma lookup_in (k : string) (ps : list (string * value)) (v : value) :
  lookup k ps = Some v -> In (k, v) ps.
Proof.
  induction ps as [|[k' v'] r IH]; simpl; [discriminate|].
  destruct (String.eqb_spec k' k) as [->|N].
  - intros [= ->]. now left.
  - intros H. right. auto.
Qed.


Lemma lookup_update_prop (ps : list (string * value)) (k k0 : string) (v : value) :
  lookup k ps <> None ->
  lookup k0 (update_prop k v ps) = if String.eqb k k0 then Some v else lookup k0 ps.
Proof.
  induction ps as [|[k' v'] r IH]; simpl; [congruence|].
  destruct (String.eqb_spec k' k) as [->|N]; simpl.
  - intros _. destruct (String.eqb_spec k k0); reflexivity.
  - intros H. destruct (String.eqb_spec k' k0) as [->|N0].
    + destruct (String.eqb_spec k k0); [congruence | reflexivity].
    + apply IH, H.
Qed.

Lemma lookup_insert_index (n : N) (ps : list (string * value)) (k k0 : string)
    (v : value) :
  lookup k ps = None ->
  lookup k0 (insert_index n k v ps) = if String.eqb k k0 then Some v else lookup k0 ps.
Proof.
  induction ps as [|[k' v'] r IH]; simpl.
  - intros _. reflexivity.
  - destruct (String.eqb_spec k' k) as [->|N]; [discriminate|]. intros H.
    destruct (array_index k') as [m|]; [destruct (m <? n)%N|]; simpl;
      try reflexivity.
    destruct (String.eqb_spec k' k0) as [->|N0].
    + destruct (String.eqb_spec k k0); [congruence | reflexivity].
    + apply IH, H.
Qed.

Lemma lookup_app_one (ps : list (string * value)) (k k0 : string) (v : value) :
  lookup k ps = None ->
  lookup k0 (ps ++ [(k, v)]) = if String.eqb k k0 then Some v else lookup k0 ps.
Proof.
  induction ps as [|[k' v'] r IH]; simpl.
  - intros _. reflexivity.
  - destruct (String.eqb_spec k' k) as [->|N]; [discriminate|]. intros H.
    destruct (String.eqb_spec k' k0) as [->|N0].
    + destruct (String.eqb_spec k k0); [congruence | reflexivity].
    + apply IH, H.
Qed.

(** Reading after writing: the written key holds the new value and every
    other key is untouched. *)
Lemma lookup_obj_set (ps : list (string * value)) (k k0 : string) (v : value) :
  lookup k0 (obj_set ps k v) = if String.eqb k k0 then Some v else lookup k0 ps.
Proof.
  unfold obj_set, has_key. destruct (lookup k ps) as [x|] eqn:E.
  - apply lookup_update_prop. congruence.
  - destruct (array_index k).
    + now apply lookup_insert_index.
    + now apply lookup_app_one.
Qed.

Lemma in_update_prop (ps : list (string * value)) (k : string) (v : value)
    (e : string * value) :
  In e (update_prop k v ps) -> e = (k, v) \/ In e ps.
Proof.
  induction ps as [|[k' v'] r IH]; simpl; [tauto|].
  destruct (String.eqb_spec k' k) as [->|N]; simpl; intuition.
Qed.

Lemma in_insert_index (n : N) (ps : list (string * value)) (k : string)
    (v : value) (e : string * value) :
  In e (insert_index n k v ps) -> e = (k, v) \/ In e ps.
Proof.
  induction ps as [|[k' v'] r IH]; simpl; [intuition|].
  destruct (array_index k') as [m|]; [destruct (m <? n)%N|]; simpl; intuition.
Qed.

(** Writing adds at most the written entry. *)
Lemma in_obj_set (ps : list (string * value)) (k : string) (v : value)
    (e : string * value) :
  In e (obj_set ps k v) -> e = (k, v) \/ In e ps.
Proof.
  unfold obj_set. destruct (has_key k ps).
  - apply in_update_prop.
  - destruct (array_index k).
    + apply in_insert_index.
    + intros H. apply in_app_or in H. simpl in H. intuition.
Qed.

End ValueFacts.

(** ** The field aggregator *)

Section Aggregator.

Lemma last_write_app {A : Type} (k : string) (l1 l2 : list (string * A)) :
  last_write k (l1 ++ l2) =
  match last_write k l2 with Some x => Some x | None => last_write k l1 end.
Proof.
  induction l1 as [|[k' a] r IH]; simpl.
  - destruct (last_write k l2); reflexivity.
  - rewrite IH. destruct (last_write k l2); reflexivity.
Qed.

Lemma last_write_tag (k g : string) (gf : list (string * value)) :
  last_write k (map (fun f => (fst f, (g, snd f))) gf) =
  match last_write k gf with Some d => Some (g, d) | None => None end.
Proof.
  induction gf as [|[k' d] r IH]; simpl; [reflexivity|].
  rewrite IH. destruct (last_write k r); [reflexivity|].
  destruct (String.eqb k' k); reflexivity.
Qed.

Lemma mergeGroup_lookup (g k : string) (gf fields : list (string * value)) :
  lookup k (mergeGroup g gf fields) =
  match last_write k gf with
  | Some d => Some (tagged g d)
  | None => lookup k fields
  end.
Proof.
  unfold mergeGroup. revert fields.
  induction gf as [|[n d] r IH]; intros fields; simpl; [reflexivity|].
  rewrite IH. destruct (last_write k r); [reflexivity|].
  rewrite lookup_obj_set. destruct (String.eqb n k); reflexivity.
Qed.

Lemma mergeStep_fold (groups : list (string * value)) :
  forallb (fun g => negb (nullish (snd g))) groups = true ->
  forall fields, exists fields',
    foldM mergeStep groups fields = Ok fields' /\
    forall k, lookup k fields' =
              match last_write k (writesOf groups) with
              | Some (g, d) => Some (tagged g d)
              | None => lookup k fields
              end.
Proof.
  induction groups as [|[g gf] r IH]; simpl; intros H fields.
  - exists fields. split; [reflexivity | intros k; reflexivity].
  - apply andb_true_iff in H as [Hg Hr].
    assert (E : entries gf = Ok (own_props gf)) by (destruct gf; simpl in *; congruence).
    rewrite E. simpl.
    destruct (IH Hr (mergeGroup g (own_props gf) fields)) as [fields' [F L]].
    exists fields'. split; [exact F|]. intros k. rewrite L.
    unfold writesOf in *. simpl. rewrite last_write_app.
    destruct (last_write k (flat_map _ r)) as [[g' d']|]; [reflexivity|].
    rewrite mergeGroup_lookup, last_write_tag. simpl.
    destruct (last_write k (own_props gf)); reflexivity.
Qed.

Lemma getAllDatasetFields_unfold (config : value) :
  nullish config = false ->
  getAllDatasetFields config =
  (fields' <- foldM mergeStep (fieldGroups config) (baseFields config) ;;
   Ok (VObj fields')).
Proof.
  intros H. unfold getAllDatasetFields. rewrite (get_attr _ _ H). simpl.
  fold (sectionOf config "dataset"). rewrite !get_section. simpl.
  reflexivity.
Qed.

(** What the aggregator returns, key by key. *)
Lemma getAllDatasetFields_aggregated (config : value) :
  nullish config = false ->
  forallb (fun g => negb (nullish (snd g))) (fieldGroups config) = true ->
  exists fields,
    getAllDatasetFields config = Ok (VObj fields) /\
    forall k, lookup k fields = aggregated config k.
Proof.
  intros H G. rewrite (getAllDatasetFields_unfold _ H).
  destruct (mergeStep_fold _ G (baseFields config)) as [fields' [F L]].
  rewrite F. simpl. exists fields'. split; [reflexivity|]. exact L.
Qed.



End Aggregator.

Section AggregatorClaims.







End AggregatorClaims.

(** ** The field normalizer *)

Section Normalizer.


Lemma inferEditor_obj (props : list (string * value)) :
  inferEditor (VObj props) =
  Ok (if truthy (attr (VObj props) "editor") then attr (VObj props) "editor"
      else editorForType (declaredType (VObj props))).
Proof.
  unfold inferEditor. rewrite !get_attr by reflexivity. simpl bind.
  destruct (truthy (attr (VObj props) "editor")); [reflexivity|].
  unfold editorForType, declaredType.
  destruct (is_str _ "integer" || is_str _ "number"); [reflexivity|].
  destruct (is_str _ "boolean"); [reflexivity|].
  destruct (is_str _ "array"); reflexivity.
Qed.

(** C1, as stated, fails: the declaration [{array: true}] has no [editor],
    [inferType] resolves it to ["array"], and [inferEditor] answers
    ["textfield"], not the editor of the resolved type. *)
Lemma inferEditor_array_shorthand_counterexample :
  lookup "editor" (own_props Samples.arrayShorthand) = None /\
  inferType Samples.arrayShorthand = Ok (VStr "array") /\
  editorForType (VStr "array") = VStr "stringList" /\
  inferEditor Samples.arrayShorthand = Ok (VStr "textfield") /\
  inferEditor Samples.arrayShorthand <>
    (t <- inferType Samples.arrayShorthand ;; Ok (editorForType t)).
Proof. repeat split; try reflexivity. discriminate. Qed.

(** C1, amended. For every field declaration with no [editor] key,
    [inferEditor] returns the editor mapped from the declaration's own [type]
    attribute, taken as ["string"] when the declaration states none (the
    [array] shorthand is not consulted): integer or number gives ["number"],
    boolean gives ["checkbox"], array gives ["stringList"], anything else
    gives ["textfield"]. *)
Theorem inferEditor_from_declared_type (props : list (string * value)) :
  lookup "editor" props = None ->
  inferEditor (VObj props) = Ok (editorForType (declaredType (VObj props))).
Proof.
  intros H. rewrite inferEditor_obj, attr_obj, H. reflexivity.
Qed.

Lemma inferEditor_from_declared_type_witness :
  lookup "editor" [("array", VBool true)] = None /\
  inferEditor Samples.arrayShorthand = Ok (VStr "textfield").
Proof.
  split; [reflexivity|].
  exact (inferEditor_from_declared_type [("array", VBool true)] eq_refl).
Defined.

End Normalizer.

(** ** The default-value deriver *)

Section Defaults.

Lemma last_write_unique (k : string) (l : list (string * value)) :
  unique (map fst l) = true -> last_write k l = lookup k l.
Proof.
  induction l as [|[k' v] r IH]; simpl; [reflexivity|].
  intros H. apply andb_true_iff in H as [N U]. rewrite (IH U).
  destruct (String.eqb_spec k' k) as [->|D].
  - destruct (lookup k r) eqn:E; [|reflexivity].
    apply lookup_in in E. apply negb_true_iff in N.
    assert (X : existsb (String.eqb k) (map fst r) = true).
    { apply existsb_exists. exists k. split; [|apply String.eqb_refl].
      apply in_map_iff. now exists (k, v0). }
    congruence.
  - destruct (lookup k r); reflexivity.
Qed.

Lemma unique_head (k : string) (v : value) (r : list (string * value)) :
  unique (map fst ((k, v) :: r)) = true -> lookup k r = None /\ unique (map fst r) = true.
Proof.
  simpl. intros H. apply andb_true_iff in H as [N U]. split; [|exact U].
  destruct (lookup k r) eqn:E; [|reflexivity].
  apply lookup_in in E. apply negb_true_iff in N.
  assert (X : existsb (String.eqb k) (map fst r) = true).
  { apply existsb_exists. exists k. split; [|apply String.eqb_refl].
    apply in_map_iff. now exists (k, v0). }
  congruence.
Qed.

Lemma assign_lookup (k : string) (target : list (string * value)) (source : value) :
  lookup k (assign target source) =
  match last_write k (own_props source) with
  | Some v => Some v
  | None => lookup k target
  end.
Proof.
  unfold assign. generalize (own_props source) as l. intros l. revert target.
  induction l as [|[n v] r IH]; intros target; simpl; [reflexivity|].
  rewrite IH. destruct (last_write k r); [reflexivity|].
  rewrite lookup_obj_set. destruct (String.eqb n k); reflexivity.
Qed.

Lemma explicit_obj (props : list (string * value)) (k : string) :
  explicit (VObj props) k =
  if defined (attr (VObj props) k) then Some (attr (VObj props) k) else None.
Proof.
  unfold explicit. rewrite attr_obj. simpl own_props.
  destruct (lookup k props) as [[]|]; reflexivity.
Qed.

Lemma deriveDefault_obj (defaults : list (string * value)) (name : string)
    (props : list (string * value)) :
  deriveDefault defaults (name, VObj props) =
  Ok (match derivedDefault (VObj props) with
      | Some v => obj_set defaults name v
      | None => defaults
      end).
Proof.
  unfold deriveDefault, derivedDefault. rewrite !get_attr by reflexivity.
  rewrite !explicit_obj. simpl bind.
  destruct (defined (attr (VObj props) "default")); [reflexivity|].
  destruct (defined (attr (VObj props) "prefill")); [reflexivity|].
  unfold zeroValue.
  destruct (is_str _ "boolean"); [reflexivity|].
  destruct (is_str _ "integer" || is_str _ "number"); [reflexivity|].
  destruct (is_str _ "array"); reflexivity.
Qed.

Lemma deriveDefault_fold (es : list (string * value)) :
  forallb (fun e => is_obj (snd e)) es = true ->
  unique (map fst es) = true ->
  forall acc, exists acc',
    foldM deriveDefault es acc = Ok acc' /\
    forall k, lookup k acc' =
              match lookup k es with
              | Some decl =>
                  match derivedDefault decl with
                  | Some v => Some v
                  | None => lookup k acc
                  end
              | None => lookup k acc
              end.
Proof.
  induction es as [|[n decl] r IH]; intros O U acc.
  - exists acc. split; [reflexivity | intros k; reflexivity].
  - simpl in O. apply andb_true_iff in O as [Od Or].
    apply unique_head in U as [Nr Ur].
    destruct decl as [| | | | | |props]; try discriminate.
    rewrite foldM_cons, deriveDefault_obj, bind_ok.
    destruct (IH Or Ur (match derivedDefault (VObj props) with
                        | Some v => obj_set acc n v | None => acc end))
      as [acc' [F L]].
    exists acc'. split; [exact F|]. intros k. rewrite L. simpl lookup.
    destruct (String.eqb_spec n k) as [->|D].
    + rewrite Nr. destruct (derivedDefault (VObj props)); [|reflexivity].
      rewrite lookup_obj_set, String.eqb_refl. reflexivity.
    + destruct (lookup k r) as [d|].
      * destruct (derivedDefault d); [reflexivity|].
        destruct (derivedDefault (VObj props)); [|reflexivity].
        rewrite lookup_obj_set. apply String.eqb_neq in D. now rewrite D.
      * destruct (derivedDefault (VObj props)); [|reflexivity].
        rewrite lookup_obj_set. apply String.eqb_neq in D. now rewrite D.
Qed.

End Defaults.

Section Shapes.

Lemma optional_section (p : value -> bool) (v : value) (k : string) :
  p (VObj []) = true ->
  (forall x, p x = true -> truthy x = true) ->
  optional p (attr v k) = true ->
  p (sectionOf v k) = true.
Proof.
  intros E T H. unfold sectionOf, or_else.
  destruct (truthy (attr v k)) eqn:Y; [|exact E].
  unfold optional in H. apply orb_true_iff in H as [H|H]; [|exact H].
  apply truthy_not_nullish in Y. congruence.
Qed.

Lemma mapping_truthy (q : value -> bool) (x : value) :
  mapping_of q x = true -> truthy x = true.
Proof. destruct x; simpl; congruence. Qed.

Lemma mapping_section (q : value -> bool) (v : value) (k : string) :
  optional (mapping_of q) (attr v k) = true ->
  unique (map fst (own_props (sectionOf v k))) = true /\
  forallb (fun e => q (snd e)) (own_props (sectionOf v k)) = true.
Proof.
  intros H.
  assert (M : mapping_of q (sectionOf v k) = true).
  { apply optional_section; [reflexivity | apply mapping_truthy | exact H]. }
  destruct (sectionOf v k); simpl in M; try discriminate.
  apply andb_true_iff in M. exact M.
Qed.

Lemma is_obj_not_nullish (v : value) : is_obj v = true -> nullish v = false.
Proof. destruct v; simpl; congruence. Qed.

Lemma inputShape_sections (config : value) :
  inputShape config = true ->
  nullish config = false /\
  (unique (map fst (inputFields config)) = true /\
   forallb (fun e => is_obj (snd e)) (inputFields config) = true) /\
  unique (map fst (inputDefaults config)) = true.
Proof.
  unfold inputShape. intros H. apply andb_true_iff in H as [O H].
  split; [now apply is_obj_not_nullish|].
  apply (optional_section _ config "input") in H.
  - apply andb_true_iff in H as [H D]. apply andb_true_iff in H as [_ F].
    split; [exact (mapping_section _ _ _ F)|].
    exact (proj1 (mapping_section _ _ _ D)).
  - reflexivity.
  - intros x X. apply andb_true_iff in X as [X _].
    apply andb_true_iff in X as [X _]. destruct x; simpl in *; congruence.
Qed.

End Shapes.

Section DefaultsClaims.

Lemma inputDefaults_cases (config : value) :
  inputDefaults config =
  if truthy (attr (sectionOf config "input") "defaults")
  then own_props (attr (sectionOf config "input") "defaults") else [].
Proof.
  unfold inputDefaults. unfold sectionOf at 1. unfold or_else.
  destruct (truthy (attr (sectionOf config "input") "defaults")); reflexivity.
Qed.

(** The defaults mapping, key by key. *)
Lemma generateDefaultInput_expected (config : value) :
  inputShape config = true ->
  exists d, generateDefaultInput config = Ok (VObj d) /\
            forall k, lookup k d = expectedDefault config k.
Proof.
  intros S. destruct (inputShape_sections config S) as [N [[U O] UD]].
  unfold generateDefaultInput. rewrite (get_attr _ _ N), bind_ok.
  fold (sectionOf config "input"). rewrite get_section, bind_ok.
  fold (sectionOf (sectionOf config "input") "fields").
  rewrite (entries_truthy _ (sectionOf_truthy _ _)), bind_ok.
  fold (inputFields config).
  destruct (deriveDefault_fold (inputFields config) O U []) as [acc [F L]].
  rewrite F, bind_ok, get_section, bind_ok.
  eexists. split; [reflexivity|]. intros k. unfold expectedDefault.
  rewrite inputDefaults_cases in *.
  destruct (truthy (attr (sectionOf config "input") "defaults")).
  - rewrite assign_lookup, (last_write_unique _ _ UD).
    destruct (lookup k (own_props _)); [reflexivity|].
    rewrite L. simpl. destruct (lookup k (inputFields config)) as [decl|]; [|reflexivity].
    destruct (derivedDefault decl); reflexivity.
  - rewrite L. simpl.
    destruct (lookup k (inputFields config)) as [decl|]; [|reflexivity].
    destruct (derivedDefault decl); reflexivity.
Qed.






End DefaultsClaims.

(** ** The shape of the dataset section *)

Section DatasetShape.

Lemma get_opt_section (a : value) (k : string) :
  k <> "length" -> get_opt a k = Ok (attr (or_else a (VObj [])) k).
Proof.
  intros N. apply String.eqb_neq in N.
  destruct a as [| |b|n|s|l|ps]; try reflexivity.
  - destruct b; reflexivity.
  - unfold or_else, attr. simpl. destruct (Z.eqb n 0); reflexivity.
  - destruct s; unfold or_else, attr; simpl; rewrite N; reflexivity.
  - unfold or_else, attr. simpl. rewrite N. reflexivity.
Qed.

Lemma datasetShape_sections (config : value) :
  datasetShape config = true ->
  nullish config = false /\
  (unique (map fst (baseFields config)) = true /\
   forallb (fun e => is_obj (snd e)) (baseFields config) = true) /\
  forallb (fun e => mapping_of is_obj (snd e)) (fieldGroups config) = true /\
  (unique (map fst (views config)) = true /\
   forallb (fun e => is_view (snd e)) (views config) = true).
Proof.
  unfold datasetShape. intros H. apply andb_true_iff in H as [O H].
  split; [now apply is_obj_not_nullish|].
  apply (optional_section _ config "dataset") in H.
  - apply andb_true_iff in H as [H V]. apply andb_true_iff in H as [H G].
    apply andb_true_iff in H as [_ F].
    split; [exact (mapping_section _ _ _ F)|].
    split; [exact (proj2 (mapping_section _ _ _ G))|].
    exact (mapping_section _ _ _ V).
  - reflexivity.
  - intros x X. repeat (apply andb_true_iff in X as [X _]).
    destruct x; simpl in *; congruence.
Qed.

Lemma groups_not_null (groups : list (string * value)) :
  forallb (fun e => mapping_of is_obj (snd e)) groups = true ->
  forallb (fun g => negb (nullish (snd g))) groups = true.
Proof.
  intros H. apply forallb_forall. intros g I.
  apply (proj1 (forallb_forall _ _) H) in I.
  destruct (snd g); simpl in *; congruence.
Qed.

(** On a well-shaped dataset section, the aggregator returns, and every
    aggregated declaration is a mapping. *)
Lemma getAllDatasetFields_shape (config : value) :
  datasetShape config = true ->
  exists fields,
    getAllDatasetFields config = Ok (VObj fields) /\
    (forall k, lookup k fields = aggregated config k) /\
    (forall k x, lookup k fields = Some x -> is_obj x = true).
Proof.
  intros S. destruct (datasetShape_sections config S) as [N [[U O] [G _]]].
  destruct (getAllDatasetFields_aggregated config N (groups_not_null _ G))
    as [fields [E L]].
  exists fields. split; [exact E|]. split; [exact L|].
  intros k x X. rewrite L in X. unfold aggregated in X.
  destruct (last_write k (groupWrites config)) as [[g d]|].
  - injection X as <-. reflexivity.
  - apply lookup_in in X. apply (proj1 (forallb_forall _ _) O) in X. exact X.
Qed.

Lemma is_obj_truthy (x : value) : is_obj x = true -> truthy x = true.
Proof. destruct x; simpl; congruence. Qed.

End DatasetShape.

(** ** The cross-reference validator *)

Section Validator.

Lemma mapping_is_obj (q : value -> bool) (v : value) :
  mapping_of q v = true -> v = VObj (own_props v).
Proof. destruct v; simpl; try discriminate. reflexivity. Qed.

Lemma checkViewField_fold (fields : list (string * value)) (known : string -> bool)
    (viewName : string) (names : list value) :
  (forall k, truthy (member fields k) = known k) ->
  forall errors,
    foldM (checkViewField (VObj fields) viewName) names errors =
    Ok (errors ++ map (msgUnknownField viewName)
                    (filter (fun n => negb (known (to_string n))) names))%list.
Proof.
  intros K. induction names as [|n r IH]; intros errors.
  - simpl. now rewrite app_nil_r.
  - rewrite foldM_cons. unfold checkViewField at 1. cbn [get_computed].
    rewrite bind_ok, K, bind_ok, IH. simpl filter.
    destruct (known (to_string n)); simpl; [reflexivity|].
    now rewrite <- app_assoc.
Qed.

Lemma view_names (view : value) :
  is_view view = true ->
  get view "fields" = Ok (attr view "fields") /\
  iterate (or_else (attr view "fields") (VArr [])) = Ok (viewNames view).
Proof.
  unfold is_view, viewNames, sectionOf. intros H.
  apply andb_true_iff in H as [O H].
  split; [apply get_attr, is_obj_not_nullish, O|].
  unfold optional in H. apply orb_true_iff in H as [H|H].
  - destruct (attr view "fields"); simpl in H; try discriminate; reflexivity.
  - destruct (attr view "fields"); simpl in H; try discriminate; reflexivity.
Qed.

Lemma checkView_fold (fields : list (string * value)) (known : string -> bool)
    (vs : list (string * value)) :
  (forall k, truthy (member fields k) = known k) ->
  forallb (fun e => is_view (snd e)) vs = true ->
  forall errors,
    foldM (checkView (VObj fields)) vs errors =
    Ok (errors ++ map (fun p => msgUnknownField (fst p) (snd p))
                    (flat_map (unresolved known) vs))%list.
Proof.
  intros K. induction vs as [|[vn vc] r IH]; intros V errors.
  - simpl. now rewrite app_nil_r.
  - simpl in V. apply andb_true_iff in V as [Vc Vr].
    destruct (view_names vc Vc) as [G I].
    rewrite foldM_cons. unfold checkView at 1.
    rewrite G, bind_ok, I, bind_ok.
    rewrite (checkViewField_fold fields known vn _ K), bind_ok, (IH Vr).
    simpl flat_map. rewrite map_app, app_assoc. unfold unresolved at 2.
    simpl fst. simpl snd. rewrite map_map. reflexivity.
Qed.

Lemma checkInputField_fold (groups : list (string * value))
    (known : string -> bool) (fs : list (string * value)) :
  (forall k, truthy (member groups k) = known k) ->
  forallb (fun e => is_obj (snd e)) fs = true ->
  forall errors,
    foldM (checkInputField (VObj groups)) fs errors =
    Ok (errors ++ map (fun p => msgUnknownGroup (fst p) (snd p))
          (flat_map
             (fun f =>
                let g := attr (snd f) "group" in
                if truthy g && negb (known (to_string g))
                then [(fst f, g)] else [])
             fs))%list.
Proof.
  intros K. induction fs as [|[fn fc] r IH]; intros O errors.
  - simpl. now rewrite app_nil_r.
  - simpl in O. apply andb_true_iff in O as [Oc Or].
    rewrite foldM_cons. unfold checkInputField at 1.
    rewrite (get_attr _ _ (is_obj_not_nullish _ Oc)), bind_ok.
    simpl flat_map. simpl fst. simpl snd.
    destruct (truthy (attr fc "group")); simpl andb.
    + cbn [get_computed]. rewrite bind_ok, K.
      destruct (known (to_string (attr fc "group"))); simpl negb.
      * rewrite bind_ok, (IH Or). reflexivity.
      * rewrite bind_ok, (IH Or). simpl. now rewrite <- app_assoc.
    + rewrite bind_ok, (IH Or). reflexivity.
Qed.

Lemma known_groups (groups : list (string * value)) :
  forallb (fun e => mapping_of is_obj (snd e)) groups = true ->
  forall k, truthy (member groups k) = has_key k groups || inherits k.
Proof.
  intros G k. unfold member, has_key.
  destruct (lookup k groups) as [x|] eqn:E;
    [|simpl; now destruct (inherits k)].
  apply lookup_in in E. apply (proj1 (forallb_forall _ _) G) in E.
  simpl in E. now apply mapping_truthy in E.
Qed.

Lemma known_fields (config : value) (fields : list (string * value)) :
  (forall k, lookup k fields = aggregated config k) ->
  (forall k x, lookup k fields = Some x -> is_obj x = true) ->
  forall k, truthy (member fields k) = reaches config k.
Proof.
  intros L O k. unfold member, reaches, isField. rewrite <- L.
  destruct (lookup k fields) as [x|] eqn:E;
    [|simpl; now destruct (inherits k)].
  apply is_obj_truthy. exact (O k x E).
Qed.

(** On a well-shaped configuration the validator returns, and its errors
    are those of the three checks, in the order the checks run: the error
    on [actor.name], then the references a keyed read does not resolve. *)
Lemma validate_errors (config : value) :
  datasetShape config = true ->
  inputShape config = true ->
  validate config =
  Ok {| valid := Nat.eqb (List.length (actorErrors config ++ viewReports config
                                        ++ groupReports config)) 0;
        errors := actorErrors config ++ viewReports config ++ groupReports config |}.
Proof.
  intros D I.
  destruct (datasetShape_sections config D) as [N [_ [G [_ V]]]].
  destruct (inputShape_sections config I) as [_ [[_ O] _]].
  destruct (getAllDatasetFields_shape config D) as [fields [E [L B]]].
  assert (T : truthy config = true).
  { unfold datasetShape in D. apply andb_true_iff in D as [D _].
    now apply is_obj_truthy. }
  unfold validate. rewrite T. simpl negb. cbv iota.
  rewrite (get_attr _ _ N), bind_ok.
  rewrite get_opt_section by discriminate. rewrite bind_ok.
  rewrite E, bind_ok, (get_attr _ _ N), bind_ok.
  rewrite get_opt_section by discriminate. rewrite bind_ok.
  fold (sectionOf config "dataset").
  fold (sectionOf (sectionOf config "dataset") "views").
  rewrite (entries_truthy _ (sectionOf_truthy _ _)), bind_ok.
  fold (views config).
  rewrite (checkView_fold fields (reaches config) _ (known_fields _ _ L B) V), bind_ok.
  rewrite get_opt_section by discriminate. rewrite bind_ok.
  rewrite (get_attr _ _ N), bind_ok.
  rewrite get_opt_section by discriminate. rewrite bind_ok.
  fold (sectionOf config "dataset").
  fold (sectionOf (sectionOf config "dataset") "field_groups").
  fold (sectionOf config "input").
  fold (sectionOf (sectionOf config "input") "fields").
  rewrite (entries_truthy _ (sectionOf_truthy _ _)), bind_ok.
  fold (inputFields config).
  assert (F : sectionOf (sectionOf config "dataset") "field_groups"
              = VObj (fieldGroups config)).
  { unfold fieldGroups.
    destruct (sectionOf (sectionOf config "dataset") "field_groups") eqn:X;
      try reflexivity;
      unfold datasetShape in D; apply andb_true_iff in D as [_ D];
      apply (optional_section _ config "dataset") in D;
      try reflexivity;
      try (intros x Hx; repeat (apply andb_true_iff in Hx as [Hx _]);
           now apply is_obj_truthy);
      apply andb_true_iff in D as [D _]; apply andb_true_iff in D as [_ D];
      apply (optional_section _ _ "field_groups") in D;
      try reflexivity; try apply mapping_truthy;
      rewrite X in D; discriminate. }
  rewrite F.
  rewrite (checkInputField_fold _ (reachesGroup config) _ (known_groups _ G) O),
    bind_ok.
  unfold actorErrors, actorNamed, actorName, viewReports, groupReports,
    reportedViewRefs, reportedGroupRefs, sectionOf.
  rewrite <- !app_assoc. reflexivity.
Qed.

End Validator.

Section ValidatorClaims.



(** C7, as stated, fails: on the mapping with no entries [validate] goes on
    to the regular checks, and the one error it returns is the error on
    [actor.name]. *)
Lemma validate_empty_mapping_counterexample :
  exists r, validate (VObj []) = Ok r /\
            In msgMissingName (errors r) /\
            ~ In msgEmptyConfig (errors r).
Proof.
  eexists. split; [reflexivity|]. simpl. split; [now left|].
  intros [H|[]]. discriminate.
Qed.

(** C7, amended. For every absent configuration ([undefined], [null] or
    another falsy value) [validate] returns exactly one error, the one on the
    empty configuration, and performs no further check.  A mapping with no
    entries passes that guard: it also gets exactly one error, the one on
    [actor.name] from the regular checks. *)
Theorem validate_absent_config (config : value) :
  truthy config = false ->
  validate config = Ok {| valid := false; errors := [msgEmptyConfig] |} /\
  validate (VObj []) = Ok {| valid := false; errors := [msgMissingName] |}.
Proof.
  intros H. split; [|reflexivity]. unfold validate. now rewrite H.
Qed.

Lemma validate_absent_config_witness :
  truthy VNull = false /\
  validate VNull = Ok {| valid := false; errors := [msgEmptyConfig] |}.
Proof.
  split; [reflexivity|]. exact (proj1 (validate_absent_config VNull eq_refl)).
Defined.



End ValidatorClaims.

(** ** The input-schema generator *)

Section InputSchema.

Lemma foldM_total {A S : Type} (step : S -> A -> completion S) (P : A -> Prop)
    (l : list A) :
  (forall a, P a -> forall s, exists s', step s a = Ok s') ->
  Forall P l ->
  forall s, exists s', foldM step l s = Ok s'.
Proof.
  intros T F. induction F as [|a r Pa _ IH]; intros s.
  - exists s. reflexivity.
  - destruct (T a Pa s) as [s1 E]. destruct (IH s1) as [s' E'].
    exists s'. rewrite foldM_cons, E, bind_ok. exact E'.
Qed.

Lemma toTitleCase_string (s : string) : exists t, toTitleCase (VStr s) = Ok (VStr t).
Proof. eexists. reflexivity. Qed.

Lemma copyIfDefined_total (props : list (string * value)) (keys : list string) :
  forall field, exists field',
    foldM (copyIfDefined (VObj props)) keys field = Ok field'.
Proof.
  apply (foldM_total _ (fun _ => True)).
  - intros k _ field. unfold copyIfDefined.
    rewrite get_attr by reflexivity. rewrite bind_ok. eexists. reflexivity.
  - apply Forall_forall. trivial.
Qed.

Lemma inputProperty_total (fieldName : string) (decl : value) :
  is_obj decl = true -> exists field, inputProperty fieldName decl = Ok field.
Proof.
  destruct decl as [| | | | | |props]; try discriminate. intros _.
  unfold inputProperty. rewrite !get_attr by reflexivity. rewrite bind_ok.
  assert (X : exists t,
             (if truthy (attr (VObj props) "title")
              then Ok (attr (VObj props) "title")
              else toTitleCase (VStr fieldName)) = Ok t).
  { destruct (truthy (attr (VObj props) "title")); eexists; reflexivity. }
  destruct X as [t ->]. rewrite !bind_ok, inferEditor_obj, bind_ok.
  destruct (copyIfDefined_total props
              ["sectionCaption"; "prefill"; "default"; "minLength"; "maxLength";
               "minimum"; "maximum"; "enum"]
              [ ("title", t);
                ("type", or_else (attr (VObj props) "type") (VStr "string"));
                ("description",
                 or_else (attr (VObj props) "description")
                   (or_else (attr (VObj props) "desc") (VStr "")));
                ("editor",
                 if truthy (attr (VObj props) "editor")
                 then attr (VObj props) "editor"
                 else editorForType (declaredType (VObj props))) ])
    as [field' E].
  rewrite E, bind_ok. eexists. reflexivity.
Qed.

(** The document of [generateInputSchema] on a well-shaped input section: the
    properties are built, and the title is the last thing that can raise. *)
Lemma generateInputSchema_document (config : value) :
  inputShape config = true ->
  exists properties,
    generateInputSchema config =
    (title <- (if truthy (actorTitle config) then Ok (actorTitle config)
               else toTitleCase (or_else (actorName config) (VStr "Actor Input"))) ;;
     Ok (VObj [ ("title", title);
                ("type", VStr "object");
                ("schemaVersion", VNum 1);
                ("properties", VObj properties);
                ("required",
                 or_else (attr (sectionOf config "input") "required") (VArr [])) ])).
Proof.
  intros S. destruct (inputShape_sections config S) as [N [[_ O] _]].
  assert (T : exists properties,
             foldM (fun properties p =>
                      let '(fieldName, fieldConfig) := p in
                      field <- inputProperty fieldName fieldConfig ;;
                      Ok (obj_set properties fieldName field))
               (inputFields config) [] = Ok properties).
  { apply (foldM_total _ (fun e => is_obj (snd e) = true)).
    - intros [n d] Hd s. simpl in Hd.
      destruct (inputProperty_total n d Hd) as [field E].
      rewrite E, bind_ok. eexists. reflexivity.
    - apply Forall_forall. intros e. apply (proj1 (forallb_forall _ _) O). }
  destruct T as [properties T]. exists properties.
  unfold generateInputSchema. rewrite !(get_attr _ _ N), !bind_ok.
  fold (sectionOf config "input"). fold (sectionOf config "actor").
  rewrite !get_section, bind_ok.
  fold (sectionOf (sectionOf config "input") "fields").
  rewrite (entries_truthy _ (sectionOf_truthy _ _)), bind_ok.
  fold (inputFields config). rewrite T, !bind_ok.
  fold (actorTitle config). fold (actorName config).
  destruct (truthy (actorTitle config)); [reflexivity|].
  destruct (toTitleCase _); reflexivity.
Qed.

(** C8, on the code. When [actor.title] and [actor.name] are both absent, the
    title of the generated input schema is ["Actor input"]: the fallback
    literal ["Actor Input"] is itself passed through [toTitleCase], which
    lower-cases everything after the first letter of a segment.  When
    [actor.title] is absent and [actor.name] is a non-empty string, the title
    is the title-cased name. *)
Theorem generateInputSchema_title (config : value) :
  inputShape config = true ->
  actorTitle config = VUndef ->
  (actorName config = VUndef ->
   exists schema, generateInputSchema config = Ok schema /\
                  attr schema "title" = VStr "Actor input" /\
                  attr schema "title" <> VStr "Actor Input") /\
  (forall n, actorName config = VStr n -> n <> "" ->
   exists schema title,
     generateInputSchema config = Ok schema /\
     toTitleCase (VStr n) = Ok title /\
     attr schema "title" = title).
Proof.
  intros S T. destruct (generateInputSchema_document config S) as [ps E].
  rewrite T in E. simpl in E. split.
  - intros N. rewrite N in E. eexists. split; [exact E|].
    split; [reflexivity | discriminate].
  - intros n N Z. rewrite N in E. unfold or_else in E. simpl truthy in E.
    apply String.eqb_neq in Z. rewrite Z in E. simpl in E.
    eexists. eexists. split; [exact E|]. split; reflexivity.
Qed.

Lemma generateInputSchema_title_witness :
  inputShape (VObj []) = true /\
  actorTitle (VObj []) = VUndef /\
  actorName (VObj []) = VUndef /\
  exists schema, generateInputSchema (VObj []) = Ok schema /\
                 attr schema "title" = VStr "Actor input".
Proof.
  repeat (split; [reflexivity|]).
  destruct (proj1 (generateInputSchema_title (VObj []) eq_refl eq_refl) eq_refl)
    as [schema [E [A _]]].
  exists schema. split; [exact E | exact A].
Defined.

End InputSchema.

(** ** Keys stay unique under writes *)

Section UniqueKeys.

Lemma unique_NoDup (l : list string) : unique l = true <-> NoDup l.
Proof.
  induction l as [|k r IH]; simpl.
  - split; [constructor | reflexivity].
  - rewrite andb_true_iff, negb_true_iff, IH. split.
    + intros [X U]. constructor; [|exact U]. intros I.
      assert (Y : existsb (String.eqb k) r = true).
      { apply existsb_exists. exists k. split; [exact I | apply String.eqb_refl]. }
      congruence.
    + intros H. inversion H as [|? ? X U]; subst. split; [|exact U].
      destruct (existsb (String.eqb k) r) eqn:Y; [|reflexivity].
      apply existsb_exists in Y as [x [I Ex]]. apply String.eqb_eq in Ex.
      subst. contradiction.
Qed.








End UniqueKeys.

(** ** The dataset-schema generator *)

Section DatasetSchema.











End DatasetSchema.

Section DatasetSchemaClaims.








End DatasetSchemaClaims.

(** * Further properties of the code *)

Import Websy.

(** ** Inference never answers with nothing *)

Section InferenceFacts.

Lemma nullish_get (v : value) (k : string) : nullish v = true -> get v k = Throw.
Proof. destruct v; simpl; intros H; congruence. Qed.

Lemma inferType_truthy (decl : value) :
  nullish decl = false -> exists t, inferType decl = Ok t /\ truthy t = true.
Proof.
  intros N. unfold inferType. rewrite !(get_attr _ _ N). cbn [bind].
  destruct (truthy (attr decl "type")) eqn:X; [eexists; split; [reflexivity | exact X]|].
  destruct (truthy (attr decl "array")); eexists; split; reflexivity.
Qed.

Lemma inferEditor_truthy (decl : value) :
  nullish decl = false -> exists e, inferEditor decl = Ok e /\ truthy e = true.
Proof.
  intros N. unfold inferEditor. rewrite !(get_attr _ _ N). cbn [bind].
  destruct (truthy (attr decl "editor")) eqn:X; [eexists; split; [reflexivity | exact X]|].
  destruct (is_str _ "integer" || is_str _ "number"); [eexists; split; reflexivity|].
  destruct (is_str _ "boolean"); [eexists; split; reflexivity|].
  destruct (is_str _ "array"); eexists; split; reflexivity.
Qed.

Lemma inferFormat_truthy (decl : value) (name : string) :
  nullish decl = false ->
  exists f, inferFormat (VStr name) decl = Ok f /\ truthy f = true.
Proof.
  intros N. unfold inferFormat. rewrite !(get_attr _ _ N). cbn [bind].
  destruct (truthy (attr decl "format")) eqn:X; [eexists; split; [reflexivity | exact X]|].
  destruct (truthy (attr decl "array")); [eexists; split; reflexivity|].
  destruct (endsWith name "_url" || String.eqb name "website");
    [eexists; split; reflexivity|].
  destruct (endsWith name "_links"); eexists; split; reflexivity.
Qed.

(** X1. On every declaration that is not [null] or [undefined], and every field
    name that is a string, the three inference functions return, and what
    they return is truthy: never [undefined], [null] or the empty string. *)
Theorem inference_never_falsy (decl : value) (name : string) :
  nullish decl = false ->
  exists t e f,
    inferType decl = Ok t /\ truthy t = true /\
    inferEditor decl = Ok e /\ truthy e = true /\
    inferFormat (VStr name) decl = Ok f /\ truthy f = true.
Proof.
  intros N.
  destruct (inferType_truthy decl N) as [t [T Tt]].
  destruct (inferEditor_truthy decl N) as [e [E Te]].
  destruct (inferFormat_truthy decl name N) as [f [F Tf]].
  exists t, e, f. repeat split; assumption.
Qed.

Lemma inference_never_falsy_witness :
  nullish (VObj []) = false /\
  exists t e f,
    inferType (VObj []) = Ok t /\ truthy t = true /\
    inferEditor (VObj []) = Ok e /\ truthy e = true /\
    inferFormat (VStr "") (VObj []) = Ok f /\ truthy f = true.
Proof.
  split; [reflexivity|]. exact (inference_never_falsy (VObj []) "" eq_refl).
Defined.

(** X2. The inference functions raise exactly on a declaration that is [null] or
    [undefined]; [inferFormat] raises besides when it has to look at a field
    name that is not a string, that is when the declaration gives neither a
    format nor the [array] flag. *)
Theorem inference_raises_exactly (decl fieldName : value) :
  (inferType decl = Throw <-> nullish decl = true) /\
  (inferEditor decl = Throw <-> nullish decl = true) /\
  (inferFormat fieldName decl = Throw <->
   nullish decl = true \/
   (truthy (attr decl "format") = false /\ truthy (attr decl "array") = false /\
    is_string fieldName = false)).
Proof.
  destruct (nullish decl) eqn:N.
  - unfold inferType, inferEditor, inferFormat.
    rewrite !(nullish_get _ _ N). simpl. repeat split; auto.
  - destruct (inferType_truthy decl N) as [t [T _]].
    destruct (inferEditor_truthy decl N) as [e [E _]].
    rewrite T, E. split; [split; discriminate|]. split; [split; discriminate|].
    unfold inferFormat. rewrite !(get_attr _ _ N). cbn [bind].
    destruct (truthy (attr decl "format")).
    { split; [discriminate|]. intros [H|[H _]]; discriminate. }
    destruct (truthy (attr decl "array")).
    { split; [discriminate|]. intros [H|[_ [H _]]]; discriminate. }
    destruct fieldName; simpl is_string;
      try (split; [intros _; right; repeat split | reflexivity]).
    split.
    + destruct (endsWith s "_url" || String.eqb s "website"); [discriminate|].
      destruct (endsWith s "_links"); discriminate.
    + intros [H|[_ [_ H]]]; discriminate.
Qed.

Lemma inference_raises_exactly_witness :
  inferType VNull = Throw /\ inferFormat (VNum 1) (VObj []) = Throw.
Proof.
  split.
  - apply (proj1 (inference_raises_exactly VNull VNull)). reflexivity.
  - apply (proj2 (proj2 (inference_raises_exactly (VObj []) (VNum 1)))).
    right. repeat split.
Defined.

End InferenceFacts.

(** ** Title case *)

Section TitleCase.

Lemma string_length_app (s1 s2 : string) :
  String.length (s1 ++ s2) = String.length s1 + String.length s2.
Proof. induction s1 as [|a r IH]; simpl; [reflexivity | now rewrite IH]. Qed.

Lemma has_char_app (c : ascii) (s1 s2 : string) :
  has_char c (s1 ++ s2) = has_char c s1 || has_char c s2.
Proof.
  induction s1 as [|a r IH]; simpl; [reflexivity|].
  rewrite IH. now rewrite orb_assoc.
Qed.

Lemma split_on_cons (c : ascii) (s : string) :
  exists w ws, split_on c s = w :: ws.
Proof.
  induction s as [|a r [w [ws IH]]]; simpl.
  - eexists. eexists. reflexivity.
  - destruct (Ascii.eqb a c); [eexists; eexists; reflexivity|].
    rewrite IH. eexists. eexists. reflexivity.
Qed.

(** Joining the pieces with the separator gives the string back. *)
Lemma concat_split_on (c : ascii) (s : string) :
  String.concat (String c EmptyString) (split_on c s) = s.
Proof.
  induction s as [|a r IH]; simpl; [reflexivity|].
  destruct (Ascii.eqb_spec a c) as [->|D].
  - destruct (split_on_cons c r) as [w [ws E]]. rewrite E in *.
    simpl. simpl in IH. now rewrite IH.
  - destruct (split_on_cons c r) as [w [ws E]]. rewrite E in *.
    destruct ws; simpl in *; now rewrite IH.
Qed.

Lemma split_on_no_sep (c : ascii) (s : string) :
  forallb (fun w => negb (has_char c w)) (split_on c s) = true.
Proof.
  induction s as [|a r IH]; simpl; [reflexivity|].
  destruct (Ascii.eqb_spec a c) as [->|D].
  - simpl. exact IH.
  - destruct (split_on_cons c r) as [w [ws E]]. rewrite E in *.
    simpl in *. apply Ascii.eqb_neq in D. now rewrite D.
Qed.

Lemma substring_all (s : string) : substring 0 (String.length s) s = s.
Proof. induction s as [|a r IH]; simpl; [reflexivity | now rewrite IH]. Qed.

Lemma capitalize_cons (a : ascii) (r : string) :
  capitalize (String a r) = String (upper_ascii a) (toLowerCase r).
Proof.
  unfold capitalize. simpl. rewrite Nat.sub_0_r, substring_all.
  destruct r; reflexivity.
Qed.

Lemma length_map_string (f : ascii -> ascii) (s : string) :
  String.length (map_string f s) = String.length s.
Proof. induction s as [|a r IH]; simpl; [reflexivity | now rewrite IH]. Qed.

Lemma length_capitalize (w : string) :
  String.length (capitalize w) = String.length w.
Proof.
  destruct w as [|a r]; [reflexivity|].
  rewrite capitalize_cons. simpl. unfold toLowerCase.
  now rewrite length_map_string.
Qed.

Lemma upper_ascii_underscore (a : ascii) :
  Ascii.eqb (upper_ascii a) "_" = Ascii.eqb a "_".
Proof. destruct a as [[] [] [] [] [] [] [] []]; reflexivity. Qed.

Lemma lower_ascii_underscore (a : ascii) :
  Ascii.eqb (lower_ascii a) "_" = Ascii.eqb a "_".
Proof. destruct a as [[] [] [] [] [] [] [] []]; reflexivity. Qed.

Lemma has_underscore_lower (s : string) :
  has_char "_" (toLowerCase s) = has_char "_" s.
Proof.
  induction s as [|a r IH]; simpl; [reflexivity|].
  unfold toLowerCase in IH. now rewrite lower_ascii_underscore, IH.
Qed.

Lemma has_underscore_capitalize (w : string) :
  has_char "_" (capitalize w) = has_char "_" w.
Proof.
  destruct w as [|a r]; [reflexivity|].
  rewrite capitalize_cons. simpl.
  now rewrite upper_ascii_underscore, has_underscore_lower.
Qed.

Lemma title_words (ws : list string) :
  forallb (fun w => negb (has_char "_" w)) ws = true ->
  String.length (String.concat " " (map capitalize ws))
  = String.length (String.concat "_" ws) /\
  has_char "_" (String.concat " " (map capitalize ws)) = false.
Proof.
  induction ws as [|w r IH]; intros H; [split; reflexivity|].
  simpl in H. apply andb_true_iff in H as [Hw Hr].
  apply negb_true_iff in Hw. destruct (IH Hr) as [L U].
  destruct r as [|w' r'].
  - simpl. split; [apply length_capitalize|].
    now rewrite has_underscore_capitalize.
  - change (String.concat " " (map capitalize (w :: w' :: r')))
      with (capitalize w ++ " " ++ String.concat " " (map capitalize (w' :: r'))).
    change (String.concat "_" (w :: w' :: r'))
      with (w ++ "_" ++ String.concat "_" (w' :: r')).
    rewrite !string_length_app, !has_char_app, length_capitalize, L,
      has_underscore_capitalize, Hw, U.
    split; reflexivity.
Qed.

Lemma capitalize_empty : capitalize EmptyString = EmptyString.
Proof. reflexivity. Qed.

Lemma append_empty_r (s : string) : s ++ EmptyString = s.
Proof. induction s as [|a r IH]; simpl; [reflexivity | now rewrite IH]. Qed.

Lemma concat_capitalize_cons (w : string) (ws : list string) :
  String.concat " " (map capitalize (w :: ws))
  = capitalize w
    ++ match ws with
       | [] => EmptyString
       | _ => " " ++ String.concat " " (map capitalize ws)
       end.
Proof.
  destruct ws as [|w' ws]; simpl; [now rewrite append_empty_r | reflexivity].
Qed.

(** Word by word and character by character are the same title case. *)
Lemma title_by_chars (s : string) :
  String.concat " " (map capitalize (split_on "_" s)) = titleChars true s /\
  exists w ws,
    split_on "_" s = w :: ws /\
    toLowerCase w
    ++ match ws with
       | [] => EmptyString
       | _ => " " ++ String.concat " " (map capitalize ws)
       end
    = titleChars false s.
Proof.
  induction s as [|a r [IH1 [w [ws [E IH2]]]]].
  - split; [reflexivity|]. exists EmptyString, []. split; reflexivity.
  - cbn [split_on titleChars]. destruct (Ascii.eqb a "_").
    + split.
      * rewrite concat_capitalize_cons, capitalize_empty, E.
        rewrite <- E, IH1. reflexivity.
      * exists EmptyString, (split_on "_" r). split; [reflexivity|].
        rewrite E. rewrite <- E, IH1. reflexivity.
    + rewrite E. split.
      * rewrite concat_capitalize_cons, capitalize_cons.
        change (String (upper_ascii a) (toLowerCase w) ++ ?x)
          with (String (upper_ascii a) (toLowerCase w ++ x)).
        cbn [append]. f_equal. rewrite <- IH2. now destruct ws.
      * exists (String a w), ws. split; [reflexivity|].
        change (toLowerCase (String a w)) with (String (lower_ascii a) (toLowerCase w)).
        cbn [append]. f_equal. rewrite <- IH2. now destruct ws.
Qed.

(** X3. On every ASCII string [toTitleCase] returns the string in title
    case: each underscore has become one space, the first character of the
    string and every character that follows an underscore is in upper
    case, and every other character is in lower case.  The result has the
    length of the argument and contains no underscore. *)
Theorem toTitleCase_length_and_underscores (s : string) :
  all_ascii s = true ->
  toTitleCase (VStr s) = Ok (VStr (titleChars true s)) /\
  String.length (titleChars true s) = String.length s /\
  has_char "_" (titleChars true s) = false.
Proof.
  intros _. rewrite <- (proj1 (title_by_chars s)). split; [reflexivity|].
  destruct (title_words (split_on "_" s) (split_on_no_sep "_" s)) as [L U].
  split; [|exact U]. rewrite L. now rewrite concat_split_on.
Qed.

Lemma toTitleCase_length_and_underscores_witness :
  all_ascii "max__items_URL" = true /\
  toTitleCase (VStr "max__items_URL") = Ok (VStr "Max  Items Url").
Proof.
  split; [reflexivity|].
  exact (proj1 (toTitleCase_length_and_underscores "max__items_URL" eq_refl)).
Defined.

End TitleCase.

(** ** The input-field to group mapping *)

Section GroupMapping.

Lemma map_set_fresh (m : list (string * value)) (k : string) (v : value) :
  ~ In k (map fst m) -> map_set m k v = (m ++ [(k, v)])%list.
Proof.
  induction m as [|[k' v'] r IH]; simpl; intros H; [reflexivity|].
  destruct (String.eqb_spec k' k) as [->|D]; [exfalso; apply H; now left|].
  rewrite IH; [reflexivity|]. intros I. apply H. now right.
Qed.

Lemma groupEntry_keys (f : string * value) (k : string) :
  In k (map fst (groupEntry f)) -> k = fst f.
Proof.
  unfold groupEntry. destruct (truthy (attr (snd f) "group")); simpl; [|tauto].
  intros [E|[]]. now symmetry.
Qed.

Lemma groupMappingStep_fold (es : list (string * value)) :
  forallb (fun e => is_obj (snd e)) es = true ->
  NoDup (map fst es) ->
  forall m,
    (forall k, In k (map fst m) -> ~ In k (map fst es)) ->
    foldM groupMappingStep es m = Ok (m ++ flat_map groupEntry es)%list.
Proof.
  induction es as [|[n d] r IH]; intros O U m Fresh.
  - simpl. now rewrite app_nil_r.
  - simpl in O. apply andb_true_iff in O as [Od Or].
    inversion U as [|? ? Nn Ur]; subst.
    rewrite foldM_cons. unfold groupMappingStep at 1.
    rewrite (get_attr _ _ (is_obj_not_nullish _ Od)), !bind_ok.
    simpl flat_map. unfold groupEntry at 1. simpl fst. simpl snd.
    destruct (truthy (attr d "group")).
    + rewrite map_set_fresh.
      * rewrite (IH Or Ur). { now rewrite <- app_assoc. }
        intros k I. rewrite map_app in I. apply in_app_or in I as [I|[<-|[]]].
        -- intros J. apply (Fresh k I). now right.
        -- exact Nn.
      * intros I. apply (Fresh n I). now left.
    + apply (IH Or Ur). intros k I J. apply (Fresh k I). now right.
Qed.

(** X4. The map [getInputGroupMapping] returns holds, in the order
    [Object.entries] enumerates the input fields, exactly the input fields
    whose declaration names a group, each with the group it names; a field
    with no [group] (or a falsy one) has no entry. *)
Theorem getInputGroupMapping_entries (config : value) :
  inputShape config = true ->
  getInputGroupMapping config = Ok (flat_map groupEntry (inputFields config)).
Proof.
  intros S. destruct (inputShape_sections config S) as [N [[U O] _]].
  unfold getInputGroupMapping. rewrite (get_attr _ _ N), bind_ok.
  rewrite get_opt_section by discriminate. rewrite bind_ok.
  fold (sectionOf config "input").
  fold (sectionOf (sectionOf config "input") "fields").
  rewrite (entries_truthy _ (sectionOf_truthy _ _)), bind_ok.
  fold (inputFields config).
  rewrite (groupMappingStep_fold _ O (proj1 (unique_NoDup _) U) []); [reflexivity|].
  intros k [].
Qed.

Lemma getInputGroupMapping_entries_witness :
  inputShape Samples.demo = true /\
  getInputGroupMapping Samples.demo = Ok [("q", VStr "bad")].
Proof.
  split; [reflexivity|]. exact (getInputGroupMapping_entries Samples.demo eq_refl).
Defined.




End GroupMapping.

(** ** More on the validator *)

Section ValidatorFacts.










Lemma mergeStep_null_group (groups : list (string * value)) :
  existsb (fun g => nullish (snd g)) groups = true ->
  forall fields, foldM mergeStep groups fields = Throw.
Proof.
  induction groups as [|[g gf] r IH]; intros H fields; [discriminate|].
  rewrite foldM_cons. unfold mergeStep at 1.
  destruct gf; simpl in H; simpl entries; cbn [bind]; try reflexivity;
    apply IH, H.
Qed.

End ValidatorFacts.

Section ValidatorEdges.

(** X8. A field-group that is [null] (a group name with nothing under it) makes
    the aggregator raise, and with it the validator and the dataset-schema
    generator: [validate] does not turn this into an error of its list. *)
Theorem null_group_raises (config : value) :
  truthy config = true ->
  existsb (fun g => nullish (snd g)) (fieldGroups config) = true ->
  getAllDatasetFields config = Throw /\
  validate config = Throw /\
  generateDatasetSchema config = Throw.
Proof.
  intros T G. pose proof (truthy_not_nullish _ T) as N.
  assert (A : getAllDatasetFields config = Throw).
  { rewrite (getAllDatasetFields_unfold _ N).
    now rewrite (mergeStep_null_group _ G). }
  split; [exact A|]. split.
  - unfold validate. rewrite T. simpl negb. cbv iota.
    rewrite (get_attr _ _ N), bind_ok.
    rewrite get_opt_section by discriminate. rewrite bind_ok, A. reflexivity.
  - unfold generateDatasetSchema. now rewrite A.
Qed.

Lemma null_group_raises_witness :
  let config := VObj [("dataset", VObj [("field_groups", VObj [("g", VNull)])])] in
  truthy config = true /\
  existsb (fun g => nullish (snd g)) (fieldGroups config) = true /\
  validate config = Throw.
Proof.
  split; [reflexivity|]. split; [reflexivity|].
  exact (proj1 (proj2 (null_group_raises
    (VObj [("dataset", VObj [("field_groups", VObj [("g", VNull)])])])
    eq_refl eq_refl))).
Defined.



End ValidatorEdges.

(** ** The manifest and the output schema *)

Section FixedDocuments.


Lemma generateActorJson_document (config : value) :
  nullish config = false ->
  generateActorJson config =
  Ok (VObj [ ("actorSpecification", VNum 1);
             ("name", or_else (actorName config) (VStr "unnamed-actor"));
             ("version",
              or_else (attr (sectionOf config "actor") "version") (VStr "0.1"));
             ("buildTag",
              or_else (attr (sectionOf config "actor") "build_tag") (VStr "latest"));
             ("environmentVariables",
              or_else (attr (sectionOf config "actor") "environment_variables")
                (VObj []));
             ("input", VStr "./input_schema.json");
             ("output", VStr "./output_schema.json");
             ("storages", VObj [("dataset", VStr "./dataset_schema.json")]) ]).
Proof.
  intros N. unfold generateActorJson. rewrite (get_attr _ _ N), bind_ok.
  fold (sectionOf config "actor"). rewrite !get_section, !bind_ok. reflexivity.
Qed.




(** X11. The validator guards the manifest: when [validate] answers
    [valid = true], the [name] of the manifest is the [actor.name] of the
    configuration, not the fallback. *)
Theorem valid_config_manifest_name (config : value) (r : validation) :
  datasetShape config = true ->
  inputShape config = true ->
  validate config = Ok r ->
  valid r = true ->
  exists manifest,
    generateActorJson config = Ok manifest /\
    attr manifest "name" = actorName config /\
    truthy (actorName config) = true.
Proof.
  intros D I V Vr.
  assert (Named : actorNamed config = true).
  { rewrite (validate_errors config D I) in V. injection V as <-.
    simpl in Vr. unfold actorErrors in Vr.
    destruct (actorNamed config); [reflexivity | discriminate]. }
  destruct (datasetShape_sections config D) as [N _].
  eexists. split; [exact (generateActorJson_document config N)|].
  unfold actorNamed in Named. split; [|exact Named].
  unfold attr. simpl. unfold or_else. now rewrite Named.
Qed.

Lemma valid_config_manifest_name_witness :
  let config := VObj [("actor", VObj [("name", VStr "demo")])] in
  datasetShape config = true /\
  inputShape config = true /\
  validate config = Ok {| valid := true; errors := [] |} /\
  exists manifest, generateActorJson config = Ok manifest /\
                   attr manifest "name" = VStr "demo".
Proof.
  repeat (split; [reflexivity|]).
  destruct (valid_config_manifest_name
              (VObj [("actor", VObj [("name", VStr "demo")])])
              {| valid := true; errors := [] |} eq_refl eq_refl eq_refl eq_refl)
    as [manifest [M [A _]]].
  exists manifest. split; [exact M | exact A].
Defined.

End FixedDocuments.

(** ** More on the input schema and the defaults *)

Section InputSchemaFacts.











End InputSchemaFacts.

Section DefaultsFacts.



(** X15. [generateDefaultInput] invents no key: every key of the defaults mapping
    is the name of an input field or a key of [input.defaults].  With no
    input section the mapping is empty. *)
Theorem defaults_keys_are_declared (config : value) :
  inputShape config = true ->
  exists defaults,
    generateDefaultInput config = Ok (VObj defaults) /\
    (forall k, has_key k defaults = true ->
               has_key k (inputFields config) = true
               \/ has_key k (inputDefaults config) = true) /\
    (inputFields config = [] -> inputDefaults config = [] ->
     forall k, lookup k defaults = None).
Proof.
  intros S. destruct (generateDefaultInput_expected config S) as [d [E L]].
  exists d. split; [exact E|]. split.
  - intros k H. unfold has_key in *. rewrite L in H. unfold expectedDefault in H.
    destruct (lookup k (inputDefaults config)); [now right|].
    destruct (lookup k (inputFields config)); [now left | discriminate].
  - intros F D k. rewrite L. unfold expectedDefault. now rewrite F, D.
Qed.

Lemma defaults_keys_are_declared_witness :
  inputShape (VObj []) = true /\
  exists defaults,
    generateDefaultInput (VObj []) = Ok (VObj defaults) /\
    lookup "anything" defaults = None.
Proof.
  split; [reflexivity|].
  destruct (defaults_keys_are_declared (VObj []) eq_refl) as [d [E [_ N]]].
  exists d. split; [exact E|]. apply N; reflexivity.
Defined.

End DefaultsFacts.

(** ** More on the dataset schema *)

Section DatasetSchemaFacts.






End DatasetSchemaFacts.

(** ** Writing the documents *)

Section Files.

Lemma generateAllSchemas_dry (existsSync : path -> bool) (raises : event -> bool)
    (m : manager) :
  (truthy (dryRun m) = true ->
   generateAllSchemas existsSync raises m = ([], generatedDocuments (config m))) /\
  (generatedDocuments (config m) = Throw ->
   generateAllSchemas existsSync raises m = ([], Throw)).
Proof.
  unfold generateAllSchemas, generatedDocuments, ensureActorDir, writeJsonFile,
    lift, call, ret.
  split.
  - intros D. rewrite D.
    destruct (generateActorJson (config m)); [|reflexivity].
    destruct (generateInputSchema (config m)); [|reflexivity].
    destruct (generateDatasetSchema (config m)); [|reflexivity].
    destruct (generateOutputSchema (config m)); reflexivity.
  - destruct (generateActorJson (config m)); [|reflexivity].
    destruct (generateInputSchema (config m)); [|reflexivity].
    destruct (generateDatasetSchema (config m)); [|reflexivity].
    destruct (generateOutputSchema (config m)); [|reflexivity].
    discriminate.
Qed.

(** What a run that is not dry does once the four documents are there: the
    directory is created if it does not exist, then the documents are
    written in order, up to the first call that raises. *)
Lemma generateAllSchemas_run (existsSync : path -> bool) (raises : event -> bool)
    (m : manager) (schemas : value) :
  truthy (dryRun m) = false ->
  generatedDocuments (config m) = Ok schemas ->
  let calls :=
    ((if existsSync (actorDir m) then [] else [MkdirSync (actorDir m)])
     ++ schemaFiles (actorDir m) schemas)%list in
  generateAllSchemas existsSync raises m =
  (untilRaise raises calls,
   if existsb raises calls then Throw else Ok schemas).
Proof.
  intros D G. revert G.
  unfold generateAllSchemas, generatedDocuments, ensureActorDir, writeJsonFile,
    lift, call, ret, schemaFiles.
  rewrite D.
  destruct (generateActorJson (config m)) as [a|]; [|discriminate].
  destruct (generateInputSchema (config m)) as [i|]; [|discriminate].
  destruct (generateDatasetSchema (config m)) as [d|]; [|discriminate].
  destruct (generateOutputSchema (config m)) as [o|]; [|discriminate].
  cbn [bind]. intros [= <-].
  rewrite !attr_obj. simpl lookup. cbn.
  destruct (existsSync (actorDir m)); cbn;
    [|destruct (raises (MkdirSync (actorDir m))); [reflexivity|]];
    (destruct (raises (WriteFileSync (Join (actorDir m) "actor.json") a));
     [reflexivity|]);
    (destruct (raises (WriteFileSync (Join (actorDir m) "input_schema.json") i));
     [reflexivity|]);
    (destruct (raises (WriteFileSync (Join (actorDir m) "dataset_schema.json") d));
     [reflexivity|]);
    (destruct (raises (WriteFileSync (Join (actorDir m) "output_schema.json") o));
     reflexivity).
Qed.

(** X17. The four documents are all generated before the first file is
    touched: a dry run, and a run in which a generator raises, call neither
    [fs.mkdirSync] nor [fs.writeFileSync], and a dry run returns the
    generated documents.  A run that is not dry creates the directory if it
    does not exist and writes the documents in order, up to the first call
    that raises; it returns the generated documents if no call raises and
    raises otherwise.  So whatever [generateAllSchemas] returns is what the
    generators produced, whether the run is dry or not. *)
Theorem generateAllSchemas_writes_nothing (existsSync : path -> bool)
    (raises : event -> bool) (m : manager) :
  (truthy (dryRun m) = true ->
   generateAllSchemas existsSync raises m = ([], generatedDocuments (config m))) /\
  (generatedDocuments (config m) = Throw ->
   generateAllSchemas existsSync raises m = ([], Throw)) /\
  (forall schemas,
     truthy (dryRun m) = false ->
     generatedDocuments (config m) = Ok schemas ->
     let calls :=
       ((if existsSync (actorDir m) then [] else [MkdirSync (actorDir m)])
        ++ schemaFiles (actorDir m) schemas)%list in
     generateAllSchemas existsSync raises m =
     (untilRaise raises calls,
      if existsb raises calls then Throw else Ok schemas)) /\
  (forall schemas,
     snd (generateAllSchemas existsSync raises m) = Ok schemas ->
     generatedDocuments (config m) = Ok schemas).
Proof.
  destruct (generateAllSchemas_dry existsSync raises m) as [Dry Raised].
  split; [exact Dry|]. split; [exact Raised|]. split.
  - intros schemas D G. exact (generateAllSchemas_run existsSync raises m schemas D G).
  - intros schemas R. destruct (truthy (dryRun m)) eqn:D.
    + rewrite (Dry eq_refl) in R. exact R.
    + destruct (generatedDocuments (config m)) as [x|] eqn:G.
      * rewrite (generateAllSchemas_run existsSync raises m x D G) in R.
        cbn [snd] in R. destruct (existsb raises _); [discriminate | exact R].
      * rewrite (Raised eq_refl) in R. discriminate R.
Qed.

Lemma generateAllSchemas_writes_nothing_witness :
  exists m,
    construct "/work" Samples.demo (VObj [("dryRun", VBool true)]) = Ok m /\
    truthy (dryRun m) = true /\
    fst (generateAllSchemas (fun _ => false) (fun _ => true) m) = [].
Proof.
  eexists. split; [reflexivity|]. split; [reflexivity|].
  match goal with
  | |- fst (generateAllSchemas _ _ ?m) = _ =>
      rewrite (proj1 (generateAllSchemas_writes_nothing
                        (fun _ => false) (fun _ => true) m) eq_refl)
  end.
  reflexivity.
Defined.

(** X18. A run that is not dry and returns writes exactly the four documents it
    returns, in the order [actor.json], [input_schema.json],
    [dataset_schema.json], [output_schema.json], all in the directory
    [.actor] under the base path (the [basePath] option, else the working
    directory); the directory is created first, and only if it does not
    exist. *)
Theorem generateAllSchemas_files (cwd : string) (cfg options : value)
    (existsSync : path -> bool) (raises : event -> bool) (m : manager)
    (schemas : value) :
  construct cwd cfg options = Ok m ->
  truthy (dryRun m) = false ->
  snd (generateAllSchemas existsSync raises m) = Ok schemas ->
  let dir := Join (Raw (VStr (basePath m))) ".actor" in
  config m = cfg /\
  (truthy (attr options "basePath") = false -> basePath m = cwd) /\
  fst (generateAllSchemas existsSync raises m) =
    ((if existsSync dir then [] else [MkdirSync dir]) ++ schemaFiles dir schemas)%list.
Proof.
  intros C D R dir.
  assert (M : config m = cfg /\ actorDir m = dir /\
              (truthy (attr options "basePath") = false -> basePath m = cwd)).
  { unfold construct in C.
    assert (G : forall k,
              get (match options with VUndef => VObj [] | _ => options end) k
              = Throw \/
              get (match options with VUndef => VObj [] | _ => options end) k
              = Ok (attr options k)).
    { intros k. destruct options; simpl; auto;
        unfold attr; simpl; destruct (String.eqb k "length"); auto. }
    destruct (G "basePath") as [X|X]; rewrite X in C; [discriminate|].
    destruct (G "dryRun") as [Y|Y]; rewrite Y in C; [discriminate|].
    destruct (G "verbose") as [Z|Z]; rewrite Z in C; [discriminate|].
    rewrite !bind_ok in C. unfold or_else at 1 in C.
    destruct (truthy (attr options "basePath")) eqn:B.
    - destruct (attr options "basePath"); try discriminate.
      injection C as <-. repeat split. discriminate.
    - injection C as <-. repeat split. }
  destruct M as [Mc [Md Mb]]. split; [exact Mc|]. split; [exact Mb|].
  destruct (generatedDocuments (config m)) as [x|] eqn:G.
  2:{ rewrite (proj2 (generateAllSchemas_dry existsSync raises m) G) in R.
      discriminate R. }
  revert R. rewrite (generateAllSchemas_run existsSync raises m x D G), Md.
  cbn [fst snd].
  set (calls := ((if existsSync dir then [] else [MkdirSync dir])
                 ++ schemaFiles dir x)%list).
  assert (U : existsb raises calls = false -> untilRaise raises calls = calls).
  { clear. induction calls as [|e r IH]; [reflexivity|].
    cbn [existsb untilRaise]. destruct (raises e); [discriminate|].
    intros H. now rewrite (IH H). }
  destruct (existsb raises calls); [discriminate|].
  intros [= <-]. exact (U eq_refl).
Qed.

Lemma generateAllSchemas_files_witness :
  exists m schemas,
    construct "/work" (VObj [("actor", VObj [("name", VStr "demo")])]) VUndef = Ok m /\
    truthy (dryRun m) = false /\
    snd (generateAllSchemas (fun _ => false) (fun _ => false) m) = Ok schemas /\
    List.length (fst (generateAllSchemas (fun _ => false) (fun _ => false) m)) = 5.
Proof.
  eexists. eexists. split; [reflexivity|]. split; [reflexivity|].
  split; [reflexivity|].
  rewrite (proj2 (proj2 (generateAllSchemas_files "/work"
             (VObj [("actor", VObj [("name", VStr "demo")])]) VUndef
             (fun _ => false) (fun _ => false) _ _ eq_refl eq_refl eq_refl))).
  reflexivity.
Defined.

(** X19. [generateInputFile] never creates a directory and calls
    [fs.writeFileSync] at most once: not at all on a dry run, which returns
    what the deriver returns, or when the deriver raises; otherwise once,
    with the derived defaults, on the output path it was given, else on
    [INPUT.json] under the base path, and it returns the defaults unless
    that call raises. *)
Theorem generateInputFile_writes (raises : event -> bool) (m : manager)
    (outputPath : value) :
  (truthy (dryRun m) = true ->
   generateInputFile raises m outputPath = ([], generateDefaultInput (config m))) /\
  (generateDefaultInput (config m) = Throw ->
   generateInputFile raises m outputPath = ([], Throw)) /\
  (forall defaults,
     truthy (dryRun m) = false ->
     generateDefaultInput (config m) = Ok defaults ->
     let write :=
       WriteFileSync
         (if truthy outputPath then Raw outputPath
          else Join (Raw (VStr (basePath m))) "INPUT.json")
         defaults in
     generateInputFile raises m outputPath =
     ([write], if raises write then Throw else Ok defaults)).
Proof.
  unfold generateInputFile, writeJsonFile, lift, call, ret.
  split; [|split].
  - intros D. rewrite D. destruct (generateDefaultInput (config m)); reflexivity.
  - intros ->. reflexivity.
  - intros defaults D ->. rewrite D. cbn.
    destruct (raises _); reflexivity.
Qed.

Lemma generateInputFile_writes_witness :
  exists m,
    construct "/work" Samples.demo VUndef = Ok m /\
    truthy (dryRun m) = false /\
    generateInputFile (fun _ => false) m VNull =
      ([WriteFileSync (Join (Raw (VStr "/work")) "INPUT.json")
          (VObj [("b", VBool true); ("m", VArr []); ("q", VStr "x")])],
       Ok (VObj [("b", VBool true); ("m", VArr []); ("q", VStr "x")])).
Proof.
  eexists. split; [reflexivity|]. split; [reflexivity|].
  match goal with
  | |- generateInputFile _ ?m _ = ([WriteFileSync _ ?d], _) =>
      exact (proj2 (proj2 (generateInputFile_writes (fun _ => false) m VNull)) d
               eq_refl eq_refl)
  end.
Defined.

End Files.

(** ** The commands [gen-schemas] and [gen-input] *)

Section Commands.

Lemma construct_command (cwd : string) (schemas d v : value) :
  construct cwd schemas (VObj [("dryRun", d); ("verbose", v)]) =
  Ok {| config := schemas;
        basePath := cwd;
        dryRun := or_else d (VBool false);
        verbose := or_else v (VBool false);
        actorDir := Join (Raw (VStr cwd)) ".actor" |}.
Proof. reflexivity. Qed.

Lemma truthy_or_false (d : value) : truthy (or_else d (VBool false)) = truthy d.
Proof. unfold or_else. destruct (truthy d) eqn:X; [exact X | reflexivity]. Qed.

(** X20. [gen-schemas] validates before it writes: if the command touches the
    file system, or returns instead of ending in [process.exit(1)], then the
    spec was loaded, its [schemas] section is there, and [validate] answered
    [valid = true] on it; and a file is touched only without [--dry-run]. *)
Theorem genSchemas_writes_only_valid (cwd : string) (existsSync : path -> bool)
    (raises : event -> bool)
    (loaded : completion value) (cmdDryRun cmdVerbose : value) :
  fst (genSchemas cwd existsSync raises loaded cmdDryRun cmdVerbose) <> [] \/
  snd (genSchemas cwd existsSync raises loaded cmdDryRun cmdVerbose) = Returns ->
  (exists yamlData schemas r,
     loaded = Ok yamlData /\
     get yamlData "schemas" = Ok schemas /\
     truthy schemas = true /\
     validate schemas = Ok r /\
     valid r = true) /\
  (fst (genSchemas cwd existsSync raises loaded cmdDryRun cmdVerbose) <> [] ->
   truthy cmdDryRun = false).
Proof.
  unfold genSchemas. destruct loaded as [yamlData|].
  2:{ simpl. intros [H|H]; [now contradiction H | discriminate]. }
  destruct (get yamlData "schemas") as [schemas|] eqn:G.
  2:{ simpl. intros [H|H]; [now contradiction H | discriminate]. }
  destruct (truthy schemas) eqn:T; simpl negb; cbv iota.
  2:{ simpl. intros [H|H]; [now contradiction H | discriminate]. }
  rewrite construct_command. simpl config.
  destruct (validate schemas) as [r|] eqn:Va.
  2:{ simpl. intros [H|H]; [now contradiction H | discriminate]. }
  destruct (valid r) eqn:V; simpl negb; cbv iota.
  2:{ simpl. intros [H|H]; [now contradiction H | discriminate]. }
  intros _. split.
  - exists yamlData, schemas, r. repeat split; try assumption; reflexivity.
  - match goal with
    | |- context [generateAllSchemas existsSync raises ?m] =>
        pose proof (proj1 (generateAllSchemas_dry existsSync raises m)) as Dry;
        destruct (generateAllSchemas existsSync raises m) as [t [s|]]
    end; simpl in *; intros H;
      rewrite truthy_or_false in Dry;
      (destruct (truthy cmdDryRun); [|reflexivity]);
      exfalso; apply H; specialize (Dry eq_refl); congruence.
Qed.

Lemma genSchemas_writes_only_valid_witness :
  let spec := VObj [("schemas", VObj [("actor", VObj [("name", VStr "demo")])])] in
  snd (genSchemas "/work" (fun _ => true) (fun _ => false) (Ok spec) VUndef VUndef)
  = Returns /\
  exists r, validate (VObj [("actor", VObj [("name", VStr "demo")])]) = Ok r /\
            valid r = true.
Proof.
  split; [reflexivity|].
  destruct (proj1 (genSchemas_writes_only_valid "/work" (fun _ => true)
              (fun _ => false)
              (Ok (VObj [("schemas",
                          VObj [("actor", VObj [("name", VStr "demo")])])]))
              VUndef VUndef (or_intror eq_refl)))
    as [yamlData [schemas [r [L [G [_ [V Vr]]]]]]].
  injection L as <-. injection G as <-. exists r. split; assumption.
Defined.

(** X21. [gen-input] does not validate: on every spec whose [schemas] section has
    a well-shaped input section the command derives the defaults, whatever
    [validate] would answer.  With [--dry-run] it touches no file and
    returns.  Without, it calls [fs.writeFileSync] once, with the defaults,
    on the output path of the command line, else on [INPUT.json] in the
    working directory; it returns if that call returns and ends in
    [process.exit(1)] if the call raises. *)
Theorem genInput_writes_defaults (cwd : string) (raises : event -> bool)
    (yamlData schemas : value) (cmdOutput cmdDryRun cmdVerbose : value) :
  get yamlData "schemas" = Ok schemas ->
  truthy schemas = true ->
  inputShape schemas = true ->
  exists defaults,
    generateDefaultInput schemas = Ok defaults /\
    let write :=
      WriteFileSync
        (if truthy cmdOutput then Raw cmdOutput
         else Join (Raw (VStr cwd)) "INPUT.json")
        defaults in
    genInput cwd raises (Ok yamlData) cmdOutput cmdDryRun cmdVerbose =
    if truthy cmdDryRun then ([], Returns)
    else ([write], if raises write then Exits 1 else Returns).
Proof.
  intros G T S. destruct (generateDefaultInput_expected schemas S) as [d [E _]].
  exists (VObj d). split; [exact E|].
  unfold genInput. rewrite G, T. simpl negb. cbv iota.
  rewrite construct_command.
  unfold generateInputFile, writeJsonFile, lift, call, ret. simpl config.
  rewrite E. simpl dryRun. rewrite truthy_or_false.
  destruct (truthy cmdDryRun); [reflexivity|]. cbn.
  destruct (raises _); reflexivity.
Qed.

Lemma genInput_writes_defaults_witness :
  let spec := VObj [("schemas", Samples.demo)] in
  inputShape Samples.demo = true /\
  (exists r, validate Samples.demo = Ok r /\ valid r = false) /\
  genInput "/work" (fun _ => false) (Ok spec) (VStr "./INPUT.json") VUndef VUndef =
  ([WriteFileSync (Raw (VStr "./INPUT.json"))
      (VObj [("b", VBool true); ("m", VArr []); ("q", VStr "x")])],
   Returns) /\
  genInput "/work" (fun _ => true) (Ok spec) (VStr "./INPUT.json") VUndef VUndef =
  ([WriteFileSync (Raw (VStr "./INPUT.json"))
      (VObj [("b", VBool true); ("m", VArr []); ("q", VStr "x")])],
   Exits 1).
Proof.
  split; [reflexivity|]. split; [eexists; split; reflexivity|]. split.
  - destruct (genInput_writes_defaults "/work" (fun _ => false)
                (VObj [("schemas", Samples.demo)])
                Samples.demo (VStr "./INPUT.json") VUndef VUndef
                eq_refl eq_refl eq_refl) as [defaults [E W]].
    injection E as <-. exact W.
  - destruct (genInput_writes_defaults "/work" (fun _ => true)
                (VObj [("schemas", Samples.demo)])
                Samples.demo (VStr "./INPUT.json") VUndef VUndef
                eq_refl eq_refl eq_refl) as [defaults [E W]].
    injection E as <-. exact W.
Defined.

End Commands.

(** ** The checks and formats of [Websy] *)

Section WebsyFacts.

Lemma includes_spec (l : list string) (x : value) :
  includes l x = true <-> exists s, x = VStr s /\ In s l.
Proof.
  destruct x; simpl; try (split; [discriminate | intros [s0 [E _]]; discriminate]).
  rewrite existsb_exists. split.
  - intros [y [I E]]. apply String.eqb_eq in E. subst. now exists y.
  - intros [s0 [[= <-] I]]. exists s. split; [exact I | apply String.eqb_refl].
Qed.

Lemma filter_empty_forall {A : Type} (p : A -> bool) (l : list A) :
  (0 <? List.length (filter p l))%nat = false <-> forall a, In a l -> p a = false.
Proof.
  induction l as [|x r IH]; simpl.
  - split; [intros _ a [] | reflexivity].
  - destruct (p x) eqn:X; simpl.
    + split; [discriminate|]. intros H. specialize (H x (or_introl eq_refl)).
      congruence.
    + rewrite IH. split.
      * intros H a [<-|I]; auto.
      * intros H a I. apply H. now right.
Qed.

(** X22. [validateCategories] answers [valid = true] exactly for an array of at
    most three elements, each of them one of the valid category names (the
    same name may appear more than once, and the empty array passes); a
    valid answer carries no message; and more than three elements are
    reported as too many whatever the elements are. *)
Theorem validateCategories_valid_iff (categories : value) :
  (categoriesValid (validateCategories categories) = true <->
   exists l, categories = VArr l /\ List.length l <= 3 /\
             forall x, In x l -> exists s, x = VStr s /\ In s VALID_CATEGORIES) /\
  (categoriesValid (validateCategories categories) = true ->
   categoriesMessage (validateCategories categories) = None) /\
  (forall l, categories = VArr l -> 3 < List.length l ->
     validateCategories categories =
     {| categoriesValid := false;
        categoriesMessage := Some "Maximum of 3 categories allowed" |}).
Proof.
  split; [|split].
  - destruct categories as [| | | | |l|];
      try (simpl; split; [discriminate | intros [l0 [E _]]; discriminate]).
    unfold validateCategories.
    destruct (Nat.ltb_spec 3 (List.length l)) as [Big|Small].
    + cbn [categoriesValid]. split; [discriminate|]. intros [l0 [[= <-] [L _]]]. lia.
    + destruct (0 <? List.length (filter _ l))%nat eqn:F.
      * cbn [categoriesValid]. split; [discriminate|]. intros [l0 [[= <-] [_ A]]].
        assert (X : (0 <? List.length
                       (filter (fun cat => negb (includes VALID_CATEGORIES cat)) l))%nat
                    = false).
        { apply filter_empty_forall. intros a I. apply negb_false_iff.
          apply includes_spec. exact (A a I). }
        congruence.
      * cbn [categoriesValid]. split; [|reflexivity]. intros _. exists l.
        split; [reflexivity|]. split; [exact Small|]. intros x I.
        apply includes_spec. apply negb_false_iff.
        exact (proj1 (filter_empty_forall _ _) F x I).
  - destruct categories as [| | | | |l|]; try discriminate.
    unfold validateCategories.
    destruct (3 <? List.length l)%nat; [discriminate|].
    destruct (0 <? List.length (filter _ l))%nat; [discriminate | reflexivity].
  - intros l -> Big. unfold validateCategories.
    apply Nat.ltb_lt in Big. now rewrite Big.
Qed.

Lemma validateCategories_valid_iff_witness :
  categoriesValid (validateCategories (VArr [VStr "AI"; VStr "AI"; VStr "NEWS"])) = true /\
  categoriesValid (validateCategories (VArr [VStr "ai"])) = false.
Proof.
  split.
  - apply (proj1 (validateCategories_valid_iff _)).
    exists [VStr "AI"; VStr "AI"; VStr "NEWS"].
    split; [reflexivity|]. split; [simpl; lia|].
    intros x [<-|[<-|[<-|[]]]]; eexists; (split; [reflexivity|]);
      simpl; tauto.
  - reflexivity.
Defined.

(** X23. On a whole number of milliseconds that is a safe integer (below
    2^53 in magnitude) [formatDuration] prints the two largest units that
    apply and drops the rest: under a minute (a negative duration included)
    the whole seconds alone; under an hour minutes and seconds; under a day
    hours and minutes; from a day on days and hours.  The second number
    stays within its unit, and the printed duration is never above the real
    one and less than one of its smaller unit below it. *)
Theorem formatDuration_units (ms : Z) :
  (Z.abs ms < 2 ^ 53)%Z ->
  ((ms < 60000)%Z ->
   formatDuration (Some ms) = Z_to_string (ms / 1000) ++ "s") /\
  ((60000 <= ms < 3600000)%Z ->
   exists m s,
     formatDuration (Some ms) = Z_to_string m ++ "m " ++ Z_to_string s ++ "s" /\
     (0 < m < 60 /\ 0 <= s < 60 /\
      (m * 60 + s) * 1000 <= ms < (m * 60 + s + 1) * 1000)%Z) /\
  ((3600000 <= ms < 86400000)%Z ->
   exists h m,
     formatDuration (Some ms) = Z_to_string h ++ "h " ++ Z_to_string m ++ "m" /\
     (0 < h < 24 /\ 0 <= m < 60 /\
      (h * 60 + m) * 60000 <= ms < (h * 60 + m + 1) * 60000)%Z) /\
  ((86400000 <= ms)%Z ->
   exists d h,
     formatDuration (Some ms) = Z_to_string d ++ "d " ++ Z_to_string h ++ "h" /\
     (0 < d /\ 0 <= h < 24 /\
      (d * 24 + h) * 3600000 <= ms < (d * 24 + h + 1) * 3600000)%Z).
Proof.
  intros _. unfold formatDuration. cbv zeta.
  set (s := (ms / 1000)%Z). set (m := (s / 60)%Z).
  set (h := (m / 60)%Z). set (d := (h / 24)%Z).
  assert (Es : (ms = 1000 * s + ms mod 1000 /\ 0 <= ms mod 1000 < 1000)%Z).
  { split; [apply Z.div_mod; lia | apply Z.mod_pos_bound; lia]. }
  assert (Em : (s = 60 * m + s mod 60 /\ 0 <= s mod 60 < 60)%Z).
  { split; [apply Z.div_mod; lia | apply Z.mod_pos_bound; lia]. }
  assert (Eh : (m = 60 * h + m mod 60 /\ 0 <= m mod 60 < 60)%Z).
  { split; [apply Z.div_mod; lia | apply Z.mod_pos_bound; lia]. }
  assert (Ed : (h = 24 * d + h mod 24 /\ 0 <= h mod 24 < 24)%Z).
  { split; [apply Z.div_mod; lia | apply Z.mod_pos_bound; lia]. }
  repeat split.
  - intros B.
    destruct (Z.ltb_spec 0 d); [lia|].
    destruct (Z.ltb_spec 0 h); [lia|].
    destruct (Z.ltb_spec 0 m); [lia|]. reflexivity.
  - intros B. exists m, (s mod 60)%Z.
    destruct (Z.ltb_spec 0 d); [lia|].
    destruct (Z.ltb_spec 0 h); [lia|].
    destruct (Z.ltb_spec 0 m); [|lia].
    rewrite Z.rem_mod_nonneg by lia. split; [reflexivity | lia].
  - intros B. exists h, (m mod 60)%Z.
    destruct (Z.ltb_spec 0 d); [lia|].
    destruct (Z.ltb_spec 0 h); [|lia].
    rewrite Z.rem_mod_nonneg by lia. split; [reflexivity | lia].
  - intros B. exists d, (h mod 24)%Z.
    destruct (Z.ltb_spec 0 d); [|lia].
    rewrite Z.rem_mod_nonneg by lia. split; [reflexivity | lia].
Qed.

Lemma formatDuration_units_witness :
  (Z.abs 93784000 < 2 ^ 53)%Z /\
  (exists d h,
     formatDuration (Some 93784000%Z)
     = Z_to_string d ++ "d " ++ Z_to_string h ++ "h" /\
     (0 < d /\ 0 <= h < 24 /\
      (d * 24 + h) * 3600000 <= 93784000 < (d * 24 + h + 1) * 3600000)%Z) /\
  formatDuration (Some (-1)%Z) = "-1s".
Proof.
  split; [reflexivity|]. split.
  - apply (proj2 (proj2 (proj2 (formatDuration_units 93784000%Z eq_refl)))). lia.
  - rewrite (proj1 (formatDuration_units (-1)%Z eq_refl)) by lia. reflexivity.
Defined.

End WebsyFacts.
